(** * Mongoose checkpoint script: a shallow embedding of [src/index.js],
      [src/personModel.js] and [src/peopleData.js].

    The script is a linear sequence of calls into an object-document mapper.
    The mapper and the database are third-party code, so the script is embedded
    against an abstract [platform] (any implementation of the mapper's calls),
    and a small in-memory reference platform is given for the properties that
    speak about stored documents.

    Conventions.
    - JavaScript values are the inductive [value]; numbers are integers (the
      script only handles ages and counts).
    - A promise is represented by the way it settles ([outcome]); the promises
      made by [cbToPromise] live in the [world] as cells, settled at most once.
    - Scheduling is abstracted: the script is single-threaded and awaits every
      promise before it starts the next call, so a reaction attached with
      [then]/[catch] runs when the promise settles.
    - [w_trace] is ghost state: the library calls with the way their promises
      settled, the console lines and the entries into the named operation
      functions, oldest first. *)

From Stdlib Require Import List String Ascii ZArith NArith Bool Lia.
From Stdlib Require Import Sorted Permutation.
Import ListNotations.
Open Scope string_scope.

(** ** Values *)

#[local] Set Warnings "-register-all".

Inductive value : Type :=
| VUndefined
| VNull
| VBool (b : bool)
| VNum (n : Z)
| VStr (s : string)
| VId (i : N)                               (* an ObjectId *)
| VArr (l : list value)
| VObj (fields : list (string * value))     (* a plain object or a document *)
| VError (kind msg : string).               (* an Error instance *)

(** JavaScript truthiness, as tested by [if (err)], [if (!person)],
    [if (!mongoUri)] and [if (mongod)]. *)
Definition truthy (v : value) : bool :=
  match v with
  | VUndefined | VNull => false
  | VBool b => b
  | VNum n => negb (n =? 0)%Z
  | VStr s => negb (s =? EmptyString)
  | VId _ | VArr _ | VObj _ | VError _ _ => true
  end.

(** An exception is any thrown value; [Hang] is an [await] on a promise that
    never settles. *)
Inductive result (A : Type) : Type :=
| Ret (a : A)
| Throw (e : value)
| Hang.
Arguments Ret {A} a.
Arguments Throw {A} e.
Arguments Hang {A}.

(** How a promise settles. *)
Inductive outcome : Type :=
| Fulfilled (v : value)
| Rejected (e : value).

Fixpoint lookup (k : string) (fields : list (string * value)) : option value :=
  match fields with
  | [] => None
  | (k', v) :: rest => if k' =? k then Some v else lookup k rest
  end.

Definition TypeError (msg : string) : value := VError "TypeError" msg.

(** [v.k] for a property name [k]. *)
Definition get_prop (v : value) (k : string) : result value :=
  match v with
  | VUndefined =>
      Throw (TypeError ("Cannot read properties of undefined (reading '" ++ k ++ "')"))
  | VNull =>
      Throw (TypeError ("Cannot read properties of null (reading '" ++ k ++ "')"))
  | VObj fields =>
      match lookup k fields with Some x => Ret x | None => Ret VUndefined end
  | VArr l =>
      if k =? "length" then Ret (VNum (Z.of_nat (List.length l))) else Ret VUndefined
  | VStr s =>
      if k =? "length" then Ret (VNum (Z.of_nat (String.length s))) else Ret VUndefined
  | VError kind msg =>
      if k =? "name" then Ret (VStr kind)
      else if k =? "message" then Ret (VStr msg) else Ret VUndefined
  | VBool _ | VNum _ | VId _ => Ret VUndefined
  end.

(** [v[0]]. *)
Definition get_index0 (v : value) : result value :=
  match v with
  | VUndefined => Throw (TypeError "Cannot read properties of undefined (reading '0')")
  | VNull => Throw (TypeError "Cannot read properties of null (reading '0')")
  | VArr l => Ret (hd VUndefined l)
  | VStr (String c _) => Ret (VStr (String c EmptyString))
  | _ => Ret VUndefined
  end.

(** ** The schema and the model ([src/personModel.js]) *)

Inductive schemaType : Type :=
| TString
| TNumber
| TArrayOf (t : schemaType).

Record schemaPath : Type := mkPath {
  path : string;
  type : schemaType;
  required : bool;
  default : option value
}.

Definition personSchema : list schemaPath :=
  [ mkPath "name" TString true None;
    mkPath "age" TNumber false None;
    mkPath "favoriteFoods" (TArrayOf TString) false (Some (VArr [])) ].

(** The models registered with [mongoose.model(name, schema)]. *)
Definition models : list (string * list schemaPath) :=
  [ ("Person", personSchema) ].

(** ** The seed data ([src/peopleData.js]) *)

Definition person_literal (name : string) (age : Z) (foods : list string) : value :=
  VObj [ ("name", VStr name); ("age", VNum age);
         ("favoriteFoods", VArr (map VStr foods)) ].

Definition peopleData : value :=
  VArr [ person_literal "John" 25 ["pizza"; "burritos"];
         person_literal "Mary" 30 ["salad"; "burritos"];
         person_literal "Mary" 22 ["pasta"];
         person_literal "Peter" 28 ["burritos"; "burger"];
         person_literal "Alice" 35 ["sushi"] ].

(** ** The library interface *)

(** A query under construction: [Model.find(filter)] followed by the chained
    helpers. *)
Record query : Type := mkQuery {
  q_filter : value;
  q_sort : option value;
  q_limit : option value;
  q_select : option value
}.

(** The promise-returning calls the script makes, each tagged with the model
    it is made on where there is one. *)
Inductive call : Type :=
| Document_save (model : string) (doc : value)
| Model_create (model : string) (docs : value)
| Query_exec (model : string) (q : query)
| Model_findOne (model : string) (filter : value)
| Model_findById (model : string) (id : value)
| Model_findOneAndUpdate (model : string) (filter update options : value)
| Model_findByIdAndRemove (model : string) (id : value)
| Model_deleteMany (model : string) (filter : value)
| MongoMemoryServer_create
| mongoose_connect (uri options : value)
| connection_close
| MongoMemoryServer_stop (mongod : value).

(** An implementation of the library over an external state [D]. *)
Record platform (D : Type) : Type := mkPlatform {
  construct : string -> value -> D -> value * D;   (* new Model(obj) *)
  exec : call -> D -> outcome * D;
  getUri : value -> value                          (* mongod.getUri() *)
}.
Arguments construct {D} p.
Arguments exec {D} p.
Arguments getUri {D} p.

(** The ten operation functions of [src/index.js]. *)
Inductive operation : Type :=
| CreateAndSavePerson | CreateManyPeople | FindPeopleByName | FindOneByFood
| FindPersonById | FindEditThenSave | FindAndUpdate | RemoveById
| RemoveManyPeople | QueryChain.

Inductive event : Type :=
| ELog (line : string) (args : list value)      (* console.log *)
| EError (line : string) (args : list value)    (* console.error *)
| EEnter (op : operation)                       (* ghost: entry into an operation *)
| ENew (model : string) (obj : value)           (* new Model(obj) *)
| ECall (c : call) (settled : outcome)           (* a library call and its promise *)
| EDone (err data : value)                      (* emitted by the probe callback *)
| EUnhandled (e : value).                       (* a rejected promise nobody handles *)

(** ** Worlds and the script monad *)

Record world (D : Type) : Type := mkWorld {
  w_ext : D;                               (* database, connection, server *)
  w_promises : list (option outcome);      (* cells made by [new Promise] *)
  w_trace : list event
}.
Arguments mkWorld {D}.
Arguments w_ext {D}.
Arguments w_promises {D}.
Arguments w_trace {D}.

Definition M (D A : Type) : Type := world D -> result A * world D.

Definition ret {D A} (a : A) : M D A := fun w => (Ret a, w).

Definition throw {D A} (e : value) : M D A := fun w => (Throw e, w).

Definition bind {D A B} (m : M D A) (k : A -> M D B) : M D B :=
  fun w =>
    match m w with
    | (Ret a, w') => k a w'
    | (Throw e, w') => (Throw e, w')
    | (Hang, w') => (Hang, w')
    end.

Declare Scope script_scope.
Delimit Scope script_scope with script.
Notation "x <- m ;; k" := (bind m (fun x => k))
  (at level 61, m at next level, right associativity) : script_scope.
Notation "m ;; k" := (bind m (fun _ => k))
  (at level 61, right associativity) : script_scope.
Open Scope script_scope.

Definition lift {D A} (r : result A) : M D A := fun w => (r, w).

Definition emit {D} (e : event) : M D unit :=
  fun w => (Ret tt, mkWorld (w_ext w) (w_promises w) (w_trace w ++ [e])).

Definition console_log {D} (line : string) (args : list value) : M D unit :=
  emit (ELog line args).

Definition console_error {D} (line : string) (args : list value) : M D unit :=
  emit (EError line args).

(** [try { body } catch (err) { handler err }] *)
Definition try_catch {D A} (body : M D A) (handler : value -> M D A) : M D A :=
  fun w =>
    match body w with
    | (Throw e, w') => handler e w'
    | other => other
    end.

(** [try { body } finally { fin }]: [fin] runs after [body] returns or throws;
    when [fin] itself throws, that exception replaces the completion of
    [body]. *)
Definition try_finally {D A} (body : M D A) (fin : M D unit) : M D A :=
  fun w =>
    match body w with
    | (Ret a, w') => (_ <- fin ;; ret a) w'
    | (Throw e, w') => (_ <- fin ;; throw e) w'
    | (Hang, w') => (Hang, w')
    end.

(** ** Promises *)

(** What a reaction hands back to [then]/[catch]: a plain value, or a promise
    whose settlement the derived promise adopts. *)
Inductive returned : Type :=
| Plain (v : value)
| Promise (p : outcome).

Definition resolution (r : returned) : outcome :=
  match r with
  | Plain v => Fulfilled v
  | Promise p => p
  end.

(** [p.then(h)] *)
Definition then_ {D} (p : outcome) (h : value -> M D returned) : M D outcome :=
  match p with
  | Fulfilled v =>
      fun w =>
        match h v w with
        | (Ret r, w') => (Ret (resolution r), w')
        | (Throw e, w') => (Ret (Rejected e), w')
        | (Hang, w') => (Hang, w')
        end
  | Rejected e => ret (Rejected e)
  end.

(** [p.catch(h)] *)
Definition catch_ {D} (p : outcome) (h : value -> M D returned) : M D outcome :=
  match p with
  | Fulfilled v => ret (Fulfilled v)
  | Rejected e =>
      fun w =>
        match h e w with
        | (Ret r, w') => (Ret (resolution r), w')
        | (Throw x, w') => (Ret (Rejected x), w')
        | (Hang, w') => (Hang, w')
        end
  end.

(** A promise chain used as a statement: its last promise is dropped. *)
Definition discard {D} (p : outcome) : M D unit :=
  match p with
  | Fulfilled _ => ret tt
  | Rejected e => emit (EUnhandled e)
  end.

(** [await p] for a promise of the library. *)
Definition await {D} (p : outcome) : M D value :=
  match p with
  | Fulfilled v => ret v
  | Rejected e => throw e
  end.

(** The body of an [async] function, seen as the promise it returns. *)
Definition async {D} (body : M D value) : M D returned :=
  fun w =>
    match body w with
    | (Ret v, w') => (Ret (Promise (Fulfilled v)), w')
    | (Throw e, w') => (Ret (Promise (Rejected e)), w')
    | (Hang, w') => (Hang, w')
    end.

Fixpoint set_nth {A} (i : nat) (x : A) (l : list A) : list A :=
  match l, i with
  | [], _ => []
  | _ :: t, O => x :: t
  | h :: t, S j => h :: set_nth j x t
  end.

(** [resolve]/[reject] of the promise in cell [i]: only the first call
    settles it. *)
Definition settle {D} (i : nat) (o : outcome) : M D unit :=
  fun w =>
    match nth_error (w_promises w) i with
    | Some None =>
        (Ret tt, mkWorld (w_ext w) (set_nth i (Some o) (w_promises w)) (w_trace w))
    | _ => (Ret tt, w)
    end.

(** [await] of a promise made by [new Promise]. *)
Definition await_cell {D} (i : nat) : M D value :=
  fun w =>
    match nth_error (w_promises w) i with
    | Some (Some (Fulfilled v)) => (Ret v, w)
    | Some (Some (Rejected e)) => (Throw e, w)
    | _ => (Hang, w)
    end.

(** A Node-style callback [(err, data) => ...]. *)
Definition callback (D : Type) : Type := value -> value -> M D value.

(** The callback [cbToPromise] hands to the wrapped function, for the promise
    in cell [i] ([src/index.js], lines 57-60). *)
Definition promise_callback {D} (i : nat) : callback D :=
  fun err data =>
    if truthy err then (settle i (Rejected err) ;; ret VUndefined)
    else (settle i (Fulfilled data) ;; ret VUndefined).

(** [src/index.js], lines 54-65: a new promise cell, the wrapped function run
    inside [try], a synchronous exception turned into [reject]. *)
Definition cbToPromise {D} (fn : callback D -> M D value) : M D nat :=
  fun w =>
    let i := List.length (w_promises w) in
    let w1 := mkWorld (w_ext w) (w_promises w ++ [None]) (w_trace w) in
    match fn (promise_callback i) w1 with
    | (Ret _, w2) => (Ret i, w2)
    | (Throw e, w2) => (_ <- settle i (Rejected e) ;; ret i) w2
    | (Hang, w2) => (Hang, w2)
    end.

(** ** The script ([src/index.js]) *)

Definition nl : string := String (ascii_of_nat 10) EmptyString.
Definition dquote : string := String (ascii_of_nat 34) EmptyString.

Definition set_field (k : string) (x : value) (v : value) : value :=
  match v with
  | VObj fields => VObj (map (fun kv => if fst kv =? k then (k, x) else kv) fields)
  | other => other
  end.

(** [person.favoriteFoods.push(food)]: the document with the item appended,
    or the TypeError JavaScript raises when there is no such array. *)
Definition push_favoriteFoods (person food : value) : result value :=
  match get_prop person "favoriteFoods" with
  | Ret (VArr l) => Ret (set_field "favoriteFoods" (VArr (l ++ [food])) person)
  | Ret VUndefined =>
      Throw (TypeError "Cannot read properties of undefined (reading 'push')")
  | Ret VNull =>
      Throw (TypeError "Cannot read properties of null (reading 'push')")
  | Ret _ => Throw (TypeError "person.favoriteFoods.push is not a function")
  | Throw e => Throw e
  | Hang => Hang
  end.

Section Script.

Context {D : Type} (P : platform D).

#[local] Abbreviation M := (M D).
#[local] Abbreviation callback := (callback D).

(** A promise-returning library call. *)
Definition lib (c : call) : M outcome :=
  fun w =>
    let (o, d) := exec P c (w_ext w) in
    (Ret o, mkWorld d (w_promises w) (w_trace w ++ [ECall c o])).

(** [new Model(obj)] *)
Definition new_ (model : string) (obj : value) : M value :=
  fun w =>
    let (doc, d) := construct P model obj (w_ext w) in
    (Ret doc, mkWorld d (w_promises w) (w_trace w ++ [ENew model obj])).

Definition enter (op : operation) : M unit := emit (EEnter op).

(** The two reactions every operation attaches:
    [data => done(null, data)] and [err => done(err)]. *)
Definition on_data (done : callback) : value -> M returned :=
  fun data => r <- done VNull data ;; ret (Plain r).

Definition on_error (done : callback) : value -> M returned :=
  fun err => r <- done err VUndefined ;; ret (Plain r).

(** Lines 68-76. *)
Definition createAndSavePerson (done : callback) : M value :=
  enter CreateAndSavePerson ;;
  person <- new_ "Person"
    (VObj [ ("name", VStr "Charlie"); ("age", VNum 40);
            ("favoriteFoods", VArr [VStr "sandwich"]) ]) ;;
  p <- lib (Document_save "Person" person) ;;
  p1 <- then_ p (on_data done) ;;
  p2 <- catch_ p1 (on_error done) ;;
  discard p2 ;;
  ret VUndefined.

(** Lines 79-84. *)
Definition createManyPeople (arrayOfPeople : value) (done : callback) : M value :=
  enter CreateManyPeople ;;
  p <- lib (Model_create "Person" arrayOfPeople) ;;
  p1 <- then_ p (on_data done) ;;
  p2 <- catch_ p1 (on_error done) ;;
  discard p2 ;;
  ret VUndefined.

(** [Person.find(filter)]: a query, not yet executed. *)
Definition Model_find (filter : value) : query := mkQuery filter None None None.
Definition sort (spec : value) (q : query) : query :=
  mkQuery (q_filter q) (Some spec) (q_limit q) (q_select q).
Definition limit (n : value) (q : query) : query :=
  mkQuery (q_filter q) (q_sort q) (Some n) (q_select q).
Definition select (fields : value) (q : query) : query :=
  mkQuery (q_filter q) (q_sort q) (q_limit q) (Some fields).

(** Lines 87-91. *)
Definition findPeopleByName (personName : value) (done : callback) : M value :=
  enter FindPeopleByName ;;
  p <- lib (Query_exec "Person" (Model_find (VObj [("name", personName)]))) ;;
  p1 <- then_ p (on_data done) ;;
  p2 <- catch_ p1 (on_error done) ;;
  discard p2 ;;
  ret VUndefined.

(** Lines 94-99. *)
Definition findOneByFood (food : value) (done : callback) : M value :=
  enter FindOneByFood ;;
  p <- lib (Model_findOne "Person" (VObj [("favoriteFoods", food)])) ;;
  p1 <- then_ p (on_data done) ;;
  p2 <- catch_ p1 (on_error done) ;;
  discard p2 ;;
  ret VUndefined.

(** Lines 102-106. *)
Definition findPersonById (personId : value) (done : callback) : M value :=
  enter FindPersonById ;;
  p <- lib (Model_findById "Person" personId) ;;
  p1 <- then_ p (on_data done) ;;
  p2 <- catch_ p1 (on_error done) ;;
  discard p2 ;;
  ret VUndefined.

(** Lines 109-121.  The first reaction returns what [done] returned when no
    person was found, and the promise of [person.save()] otherwise; the
    second reaction is attached to the promise derived from the first. *)
Definition findEditThenSave (personId : value) (done : callback) : M value :=
  enter FindEditThenSave ;;
  p <- lib (Model_findById "Person" personId) ;;
  p1 <- then_ p (fun person =>
          if negb (truthy person) then
            r <- done (VError "Error" "Person not found") VUndefined ;;
            ret (Plain r)
          else
            person' <- lift (push_favoriteFoods person (VStr "hamburger")) ;;
            saved <- lib (Document_save "Person" person') ;;
            ret (Promise saved)) ;;
  p2 <- then_ p1 (on_data done) ;;
  p3 <- catch_ p2 (on_error done) ;;
  discard p3 ;;
  ret VUndefined.

(** Lines 124-129. *)
Definition findAndUpdate (personName : value) (done : callback) : M value :=
  enter FindAndUpdate ;;
  p <- lib (Model_findOneAndUpdate "Person"
              (VObj [("name", personName)]) (VObj [("age", VNum 20)])
              (VObj [("new", VBool true)])) ;;
  p1 <- then_ p (on_data done) ;;
  p2 <- catch_ p1 (on_error done) ;;
  discard p2 ;;
  ret VUndefined.

(** Lines 132-136. *)
Definition removeById (personId : value) (done : callback) : M value :=
  enter RemoveById ;;
  p <- lib (Model_findByIdAndRemove "Person" personId) ;;
  p1 <- then_ p (on_data done) ;;
  p2 <- catch_ p1 (on_error done) ;;
  discard p2 ;;
  ret VUndefined.

(** Lines 139-145. *)
Definition removeManyPeople (done : callback) : M value :=
  enter RemoveManyPeople ;;
  p <- lib (Model_deleteMany "Person" (VObj [("name", VStr "Mary")])) ;;
  p1 <- then_ p (on_data done) ;;
  p2 <- catch_ p1 (on_error done) ;;
  discard p2 ;;
  ret VUndefined.

(** The query built by lines 149-152. *)
Definition burritos_query : query :=
  select (VStr "-age")
    (limit (VNum 2)
       (sort (VObj [("name", VNum 1)])
          (Model_find (VObj [("favoriteFoods", VStr "burritos")])))).

(** Lines 148-156. *)
Definition queryChain (done : callback) : M value :=
  enter QueryChain ;;
  p <- lib (Query_exec "Person" burritos_query) ;;
  p1 <- then_ p (on_data done) ;;
  p2 <- catch_ p1 (on_error done) ;;
  discard p2 ;;
  ret VUndefined.

(** Lines 159-203. *)
Definition runAllTasks : M value :=
  console_log (nl ++ "---- Running Mongoose tasks ----" ++ nl) [] ;;
  h1 <- cbToPromise createAndSavePerson ;;
  savedPerson <- await_cell h1 ;;
  console_log "1) createAndSavePerson result ->" [savedPerson] ;;
  h2 <- cbToPromise (fun done => createManyPeople peopleData done) ;;
  many <- await_cell h2 ;;
  many_length <- lift (get_prop many "length") ;;
  console_log "2) createManyPeople result -> created" [many_length; VStr "people"] ;;
  h3 <- cbToPromise (fun done => findPeopleByName (VStr "Mary") done) ;;
  foundMary <- await_cell h3 ;;
  console_log ("3) findPeopleByName(" ++ dquote ++ "Mary" ++ dquote ++ ") ->") [foundMary] ;;
  h4 <- cbToPromise (fun done => findOneByFood (VStr "burritos") done) ;;
  oneWithBurritos <- await_cell h4 ;;
  console_log ("4) findOneByFood(" ++ dquote ++ "burritos" ++ dquote ++ ") ->") [oneWithBurritos] ;;
  h5 <- cbToPromise (fun done =>
          id <- lift (get_prop savedPerson "_id") ;; findPersonById id done) ;;
  foundById <- await_cell h5 ;;
  console_log "5) findPersonById ->" [foundById] ;;
  h6 <- cbToPromise (fun done =>
          id <- lift (get_prop savedPerson "_id") ;; findEditThenSave id done) ;;
  edited <- await_cell h6 ;;
  console_log "6) findEditThenSave ->" [edited] ;;
  h7 <- cbToPromise (fun done => findAndUpdate (VStr "John") done) ;;
  updated <- await_cell h7 ;;
  console_log ("7) findAndUpdate(" ++ dquote ++ "John" ++ dquote ++ ") ->") [updated] ;;
  h8 <- cbToPromise (fun done =>
          first <- lift (get_index0 many) ;;
          id <- lift (get_prop first "_id") ;; removeById id done) ;;
  removed <- await_cell h8 ;;
  console_log "8) removeById ->" [removed] ;;
  h9 <- cbToPromise removeManyPeople ;;
  removeManyResult <- await_cell h9 ;;
  console_log "9) removeManyPeople (name: Mary) ->" [removeManyResult] ;;
  h10 <- cbToPromise queryChain ;;
  chainResult <- await_cell h10 ;;
  console_log "10) queryChain ->" [chainResult] ;;
  console_log (nl ++ "---- Tasks finished ----" ++ nl) [] ;;
  ret VUndefined.

(** The options passed to [mongoose.connect] (line 30). *)
Definition connect_options : value :=
  VObj [ ("useNewUrlParser", VBool true); ("useUnifiedTopology", VBool true) ].

(** The [finally] block of lines 38-44, for the server handle [mongod]. *)
Definition release (mongod : value) : M unit :=
  closed <- lib connection_close ;;
  _ <- await closed ;;
  _ <- (if truthy mongod then
          stopped <- lib (MongoMemoryServer_stop mongod) ;;
          _ <- await stopped ;; ret tt
        else ret tt) ;;
  console_log "Connection closed." [].

(** The reaction of lines 31-45, run once the connection is established. *)
Definition connected (mongod : value) : M value :=
  console_log "Successfully connected to MongoDB" [] ;;
  try_finally
    (try_catch
       (_ <- runAllTasks ;; console_log "All tasks completed." [])
       (fun err => console_error "Error running tasks:" [err]))
    (release mongod) ;;
  ret VUndefined.

(** Lines 30-48: connect, then run the tasks and release; a failure of the
    connection or of the release is logged. *)
Definition connect_and_run (mongoUri mongod : value) : M value :=
  p <- lib (mongoose_connect mongoUri connect_options) ;;
  p1 <- then_ p (fun _ => async (connected mongod)) ;;
  p2 <- catch_ p1 (fun err =>
          console_error "MongoDB connection error:" [err] ;; ret (Plain VUndefined)) ;;
  discard p2 ;;
  ret VUndefined.

(** Lines 17-49.  [MONGO_URI] is [process.env.MONGO_URI]: a string, or
    [undefined] when the variable is not set. *)
Definition start (MONGO_URI : value) : M value :=
  vars <- (if negb (truthy MONGO_URI) then
             console_log "MONGO_URI not set. Starting in-memory MongoDB..." [] ;;
             created <- lib MongoMemoryServer_create ;;
             mongod <- await created ;;
             ret (getUri P mongod, mongod)
           else ret (MONGO_URI, VNull)) ;;
  connect_and_run (fst vars) (snd vars).

End Script.

(** ** A reference platform: the mapper over an in-memory collection

    The mapper and the database are not part of the repository.  This module
    is a reference implementation of the calls the script makes, following
    the mapper's documented behaviour for the registered [models]: the
    constructor fills in defaults and a fresh [_id]; [save] and [create]
    validate against the schema and store nothing when validation fails;
    queries filter by equality (an array field matches when it contains the
    value), sort, limit and project; updates set the listed paths without
    running the [required] validators.  Values are not coerced: a value of the
    wrong type is a validation or cast error.  The version key is left out. *)

Module InMemory.

Record store : Type := mkStore {
  collection : list value;      (* the documents, in insertion order *)
  next_id : N;                  (* the next fresh ObjectId *)
  server_running : bool;        (* the in-memory database server *)
  connection_open : bool
}.

Definition with_collection (c : list value) (st : store) : store :=
  mkStore c (next_id st) (server_running st) (connection_open st).

Definition field (k : string) (doc : value) : value :=
  match doc with
  | VObj fields => match lookup k fields with Some v => v | None => VUndefined end
  | _ => VUndefined
  end.

Definition absent (v : value) : bool :=
  match v with
  | VUndefined | VNull => true
  | _ => false
  end.

Fixpoint has_type (t : schemaType) (v : value) : bool :=
  match t, v with
  | TString, VStr _ => true
  | TNumber, VNum _ => true
  | TArrayOf t', VArr l => forallb (has_type t') l
  | _, _ => false
  end.

Definition schema_of (model : string) : option (list schemaPath) :=
  option_map snd (find (fun m => fst m =? model) models).

Definition valid_path (doc : value) (sp : schemaPath) : bool :=
  let v := field (path sp) doc in
  if absent v then negb (required sp) else has_type (type sp) v.

Definition validate (schema : list schemaPath) (doc : value) : bool :=
  forallb (valid_path doc) schema.

(** The paths of a new document: the supplied value, else the default. *)
Definition initial_fields (schema : list schemaPath) (obj : value)
  : list (string * value) :=
  flat_map (fun sp =>
    match field (path sp) obj with
    | VUndefined =>
        match default sp with Some d => [(path sp, d)] | None => [] end
    | v => [(path sp, v)]
    end) schema.

Definition construct (model : string) (obj : value) (st : store) : value * store :=
  match schema_of model with
  | Some schema =>
      (VObj (("_id", VId (next_id st)) :: initial_fields schema obj),
       mkStore (collection st) (N.succ (next_id st))
               (server_running st) (connection_open st))
  | None => (VUndefined, st)
  end.

Definition has_id (i : N) (doc : value) : bool :=
  match field "_id" doc with
  | VId j => (i =? j)%N
  | _ => false
  end.

(** Replace the first element satisfying [test], if any. *)
Fixpoint update_first (test : value -> bool) (f : value -> value) (l : list value)
  : list value :=
  match l with
  | [] => []
  | d :: rest => if test d then f d :: rest else d :: update_first test f rest
  end.

Fixpoint remove_first (test : value -> bool) (l : list value) : list value :=
  match l with
  | [] => []
  | d :: rest => if test d then rest else d :: remove_first test rest
  end.

Definition missing_schema (model : string) : value :=
  VError "MissingSchemaError" ("Schema hasn't been registered for model " ++ model).

(** [doc.save()]: validate, then insert the document or overwrite the stored
    one with the same [_id]. *)
Definition save (model : string) (doc : value) (st : store) : outcome * store :=
  match schema_of model with
  | None => (Rejected (missing_schema model), st)
  | Some schema =>
      if validate schema doc then
        match field "_id" doc with
        | VId i =>
            if existsb (has_id i) (collection st) then
              (Fulfilled doc,
               with_collection (update_first (has_id i) (fun _ => doc) (collection st)) st)
            else (Fulfilled doc, with_collection (collection st ++ [doc]) st)
        | _ =>
            (Rejected (VError "MongooseError" "document must have an _id before saving"),
             st)
        end
      else (Rejected (VError "ValidationError" (model ++ " validation failed")), st)
  end.

(** [Model.create(array)]: every element is constructed and saved; the
    promise rejects with the first error, the other documents stay stored. *)
Fixpoint create_all (model : string) (objs : list value) (st : store)
  : list value * option value * store :=
  match objs with
  | [] => ([], None, st)
  | obj :: rest =>
      let (doc, st1) := construct model obj st in
      match save model doc st1 with
      | (Fulfilled d, st2) =>
          let '(ds, err, st3) := create_all model rest st2 in (d :: ds, err, st3)
      | (Rejected e, st2) =>
          let '(ds, _, st3) := create_all model rest st2 in (ds, Some e, st3)
      end
  end.

Definition create (model : string) (docs : value) (st : store) : outcome * store :=
  match docs with
  | VArr objs =>
      match create_all model objs st with
      | (ds, None, st') => (Fulfilled (VArr ds), st')
      | (_, Some e, st') => (Rejected e, st')
      end
  | obj => let (doc, st1) := construct model obj st in save model doc st1
  end.

(** Equality of a filter value with a stored scalar. *)
Definition scalar_eqb (a b : value) : bool :=
  match a, b with
  | VStr x, VStr y => x =? y
  | VNum x, VNum y => (x =? y)%Z
  | VBool x, VBool y => Bool.eqb x y
  | VId x, VId y => (x =? y)%N
  | VNull, VNull | VNull, VUndefined => true
  | _, _ => false
  end.

Definition matches_value (wanted stored : value) : bool :=
  match stored with
  | VArr l => existsb (scalar_eqb wanted) l
  | _ => scalar_eqb wanted stored
  end.

(** A document matches a filter object when every condition holds. *)
Definition matches (filter doc : value) : bool :=
  match filter with
  | VObj conds =>
      forallb (fun kv => matches_value (snd kv) (field (fst kv) doc)) conds
  | _ => true
  end.

(** The comparison order of stored values, by kind first. *)
Definition rank (v : value) : nat :=
  match v with
  | VUndefined | VNull => 0
  | VNum _ => 1
  | VStr _ => 2
  | VObj _ => 3
  | VArr _ => 4
  | VId _ => 5
  | VBool _ => 6
  | VError _ _ => 7
  end.

Definition key_leb (a b : value) : bool :=
  match a, b with
  | VNum x, VNum y => (x <=? y)%Z
  | VStr x, VStr y => String.leb x y
  | _, _ => Nat.leb (rank a) (rank b)
  end.

Fixpoint insert_by (le : value -> value -> bool) (d : value) (l : list value)
  : list value :=
  match l with
  | [] => [d]
  | x :: rest => if le d x then d :: l else x :: insert_by le d rest
  end.

Definition sort_by (le : value -> value -> bool) (l : list value) : list value :=
  fold_right (insert_by le) [] l.

(** [{ k: 1 }] sorts ascending by [k], [{ k: -1 }] descending. *)
Definition apply_sort (spec : option value) (l : list value) : list value :=
  match spec with
  | Some (VObj [(k, VNum 1)]) =>
      sort_by (fun a b => key_leb (field k a) (field k b)) l
  | Some (VObj [(k, VNum (-1))]) =>
      sort_by (fun a b => key_leb (field k b) (field k a)) l
  | _ => l
  end.

(** [limit(0)] is no limit. *)
Definition apply_limit (n : option value) (l : list value) : list value :=
  match n with
  | Some (VNum 0) => l
  | Some (VNum z) => firstn (Z.abs_nat z) l
  | _ => l
  end.

Definition remove_field (k : string) (doc : value) : value :=
  match doc with
  | VObj fields => VObj (filter (fun kv => negb (fst kv =? k)) fields)
  | other => other
  end.

Definition keep_field (k : string) (doc : value) : value :=
  match doc with
  | VObj fields =>
      VObj (filter (fun kv => (fst kv =? k) || (fst kv =? "_id")) fields)
  | other => other
  end.

(** [select('-k')] hides [k]; [select('k')] keeps [k] and [_id]. *)
Definition apply_select (spec : option value) (doc : value) : value :=
  match spec with
  | Some (VStr (String "-" k)) => remove_field k doc
  | Some (VStr k) => keep_field k doc
  | _ => doc
  end.

Definition run_query (q : query) (st : store) : list value :=
  map (apply_select (q_select q))
    (apply_limit (q_limit q)
       (apply_sort (q_sort q)
          (filter (matches (q_filter q)) (collection st)))).

Definition put_field (k : string) (x : value) (doc : value) : value :=
  match doc with
  | VObj fields =>
      match lookup k fields with
      | Some _ => set_field k x doc
      | None => VObj (fields ++ [(k, x)])
      end
  | other => other
  end.

(** The update document applied to [doc]: paths outside the schema are
    dropped, [undefined] is skipped, a value of the wrong type is a cast
    error. *)
Fixpoint apply_update (schema : list schemaPath) (sets : list (string * value))
  (doc : value) : option value :=
  match sets with
  | [] => Some doc
  | (k, v) :: rest =>
      match find (fun sp => path sp =? k) schema with
      | None => apply_update schema rest doc
      | Some sp =>
          match v with
          | VUndefined => apply_update schema rest doc
          | VNull => apply_update schema rest (put_field k v doc)
          | _ =>
              if has_type (type sp) v
              then apply_update schema rest (put_field k v doc)
              else None
          end
      end
  end.

Definition cast_error (what : string) : value :=
  VError "CastError" ("Cast failed for " ++ what).

Definition findOneAndUpdate (schema : list schemaPath)
  (filter update options : value) (st : store) : outcome * store :=
  match find (matches filter) (collection st) with
  | None => (Fulfilled VNull, st)
  | Some d =>
      let sets := match update with VObj sets => sets | _ => [] end in
      match apply_update schema sets d with
      | None => (Rejected (cast_error "update"), st)
      | Some d' =>
          (Fulfilled (if truthy (field "new" options) then d' else d),
           with_collection
             (update_first (matches filter) (fun _ => d') (collection st)) st)
      end
  end.

Definition findById (id : value) (st : store) : outcome * store :=
  match id with
  | VId i =>
      match find (has_id i) (collection st) with
      | Some d => (Fulfilled d, st)
      | None => (Fulfilled VNull, st)
      end
  | VUndefined | VNull => (Fulfilled VNull, st)
  | _ => (Rejected (cast_error "_id"), st)
  end.

Definition findByIdAndRemove (id : value) (st : store) : outcome * store :=
  match id with
  | VId i =>
      match find (has_id i) (collection st) with
      | Some d =>
          (Fulfilled d, with_collection (remove_first (has_id i) (collection st)) st)
      | None => (Fulfilled VNull, st)
      end
  | VUndefined | VNull => (Fulfilled VNull, st)
  | _ => (Rejected (cast_error "_id"), st)
  end.

Definition deleteMany (filter : value) (st : store) : outcome * store :=
  let gone := List.filter (matches filter) (collection st) in
  (Fulfilled (VObj [ ("acknowledged", VBool true);
                     ("deletedCount", VNum (Z.of_nat (List.length gone))) ]),
   with_collection
     (List.filter (fun d => negb (matches filter d)) (collection st)) st).

(** A call on a model that was never registered is rejected. *)
Definition on_model (model : string) (st : store)
  (k : list schemaPath -> outcome * store) : outcome * store :=
  match schema_of model with
  | Some schema => k schema
  | None => (Rejected (missing_schema model), st)
  end.

Definition memory_uri : string := "mongodb://127.0.0.1:27017/".

Definition exec (c : call) (st : store) : outcome * store :=
  match c with
  | Document_save model doc => save model doc st
  | Model_create model docs => on_model model st (fun _ => create model docs st)
  | Query_exec model q =>
      on_model model st (fun _ => (Fulfilled (VArr (run_query q st)), st))
  | Model_findOne model filter =>
      on_model model st (fun _ =>
        match find (matches filter) (collection st) with
        | Some d => (Fulfilled d, st)
        | None => (Fulfilled VNull, st)
        end)
  | Model_findById model id => on_model model st (fun _ => findById id st)
  | Model_findOneAndUpdate model filter update options =>
      on_model model st (fun schema =>
        findOneAndUpdate schema filter update options st)
  | Model_findByIdAndRemove model id =>
      on_model model st (fun _ => findByIdAndRemove id st)
  | Model_deleteMany model filter =>
      on_model model st (fun _ => deleteMany filter st)
  | MongoMemoryServer_create =>
      (Fulfilled (VObj [("uri", VStr memory_uri)]),
       mkStore (collection st) (next_id st) true (connection_open st))
  | mongoose_connect uri _ =>
      match uri with
      | VStr (String _ _) =>
          (Fulfilled (VObj [("connection", VObj [])]),
           mkStore (collection st) (next_id st) (server_running st) true)
      | _ =>
          (Rejected (VError "MongooseError" "The uri parameter must be a string"),
           st)
      end
  | connection_close =>
      (Fulfilled VUndefined,
       mkStore (collection st) (next_id st) (server_running st) false)
  | MongoMemoryServer_stop _ =>
      (Fulfilled (VBool true),
       mkStore (collection st) (next_id st) false (connection_open st))
  end.

Definition mapper : platform store :=
  mkPlatform store construct exec (field "uri").

Definition empty : store := mkStore [] 0 false false.

Definition fresh_world (st : store) : world store := mkWorld st [] [].

End InMemory.

(** ** Vocabulary of the specification *)

(** A callback that only records how it was invoked. *)
Definition probe {D} : callback D :=
  fun err data => emit (EDone err data) ;; ret VUndefined.

(** A callback that never throws. *)
Definition returns_normally {D} (done : callback D) : Prop :=
  forall err data w e w', done err data w <> (Throw e, w').

(** The events added to the trace between two worlds. *)
Definition since {D} (w w' : world D) : list event :=
  skipn (List.length (w_trace w)) (w_trace w').

(** The conversion of a promise to callback style written out in every
    operation function: [p.then(data => done(null, data)).catch(err => done(err))]. *)
Definition nodeify {D} (p : M D outcome) (done : callback D) : M D value :=
  o <- p ;;
  p1 <- then_ o (on_data done) ;;
  p2 <- catch_ p1 (on_error done) ;;
  discard p2 ;;
  ret VUndefined.

(** Delegation as the specification words it: the library call is made, and
    [done] is invoked once, with the error when the call fails and with
    [null] and the result when it succeeds. *)
Definition adapted {D} (P : platform D) (c : call) (done : callback D) : M D value :=
  o <- lib P c ;;
  match o with
  | Fulfilled data => done VNull data ;; ret VUndefined
  | Rejected err => done err VUndefined ;; ret VUndefined
  end.

(** How the promise of [cbToPromise] settles when the wrapped promise settles
    as [o]: the callback tests the error for truthiness. *)
Definition roundtrip (o : outcome) : outcome :=
  match o with
  | Fulfilled v => Fulfilled v
  | Rejected e => if truthy e then Rejected e else Fulfilled VUndefined
  end.

(** The state of the promise in cell [i]. *)
Definition promise_state {D} (i : nat) (w : world D) : option outcome :=
  match nth_error (w_promises w) i with
  | Some s => s
  | None => None
  end.

(** An event with the values computed at run time blanked out. *)
Definition outline_call (c : call) : call :=
  match c with
  | Document_save model _ => Document_save model VUndefined
  | Model_findById model _ => Model_findById model VUndefined
  | Model_findByIdAndRemove model _ => Model_findByIdAndRemove model VUndefined
  | MongoMemoryServer_stop _ => MongoMemoryServer_stop VUndefined
  | mongoose_connect _ options => mongoose_connect VUndefined options
  | other => other
  end.

Definition outline_event (e : event) : event :=
  match e with
  | ELog line _ => ELog line []
  | EError line _ => EError line []
  | ECall c _ => ECall (outline_call c) (Fulfilled VUndefined)
  | EDone _ _ => EDone VUndefined VUndefined
  | EUnhandled _ => EUnhandled VUndefined
  | other => other
  end.

Definition outline (t : list event) : list event := map outline_event t.

Definition called (c : call) : event := ECall c (Fulfilled VUndefined).

(** The outline of a complete run of [runAllTasks]. *)
Definition tasks_outline : list event :=
  [ ELog (nl ++ "---- Running Mongoose tasks ----" ++ nl) [];
    EEnter CreateAndSavePerson;
    ENew "Person" (VObj [ ("name", VStr "Charlie"); ("age", VNum 40);
                          ("favoriteFoods", VArr [VStr "sandwich"]) ]);
    called (Document_save "Person" VUndefined);
    ELog "1) createAndSavePerson result ->" [];
    EEnter CreateManyPeople;
    called (Model_create "Person" peopleData);
    ELog "2) createManyPeople result -> created" [];
    EEnter FindPeopleByName;
    called (Query_exec "Person" (mkQuery (VObj [("name", VStr "Mary")]) None None None));
    ELog ("3) findPeopleByName(" ++ dquote ++ "Mary" ++ dquote ++ ") ->") [];
    EEnter FindOneByFood;
    called (Model_findOne "Person" (VObj [("favoriteFoods", VStr "burritos")]));
    ELog ("4) findOneByFood(" ++ dquote ++ "burritos" ++ dquote ++ ") ->") [];
    EEnter FindPersonById;
    called (Model_findById "Person" VUndefined);
    ELog "5) findPersonById ->" [];
    EEnter FindEditThenSave;
    called (Model_findById "Person" VUndefined);
    called (Document_save "Person" VUndefined);
    ELog "6) findEditThenSave ->" [];
    EEnter FindAndUpdate;
    called (Model_findOneAndUpdate "Person" (VObj [("name", VStr "John")])
              (VObj [("age", VNum 20)]) (VObj [("new", VBool true)]));
    ELog ("7) findAndUpdate(" ++ dquote ++ "John" ++ dquote ++ ") ->") [];
    EEnter RemoveById;
    called (Model_findByIdAndRemove "Person" VUndefined);
    ELog "8) removeById ->" [];
    EEnter RemoveManyPeople;
    called (Model_deleteMany "Person" (VObj [("name", VStr "Mary")]));
    ELog "9) removeManyPeople (name: Mary) ->" [];
    EEnter QueryChain;
    called (Query_exec "Person"
              (mkQuery (VObj [("favoriteFoods", VStr "burritos")])
                 (Some (VObj [("name", VNum 1)])) (Some (VNum 2))
                 (Some (VStr "-age"))));
    ELog "10) queryChain ->" [];
    ELog (nl ++ "---- Tasks finished ----" ++ nl) [] ].

(** The operations entered, in order. *)
Fixpoint entered (t : list event) : list operation :=
  match t with
  | [] => []
  | EEnter op :: rest => op :: entered rest
  | _ :: rest => entered rest
  end.

Definition all_operations : list operation :=
  [ CreateAndSavePerson; CreateManyPeople; FindPeopleByName; FindOneByFood;
    FindPersonById; FindEditThenSave; FindAndUpdate; RemoveById;
    RemoveManyPeople; QueryChain ].

(** The callback invocations recorded by [probe]. *)
Fixpoint reported (t : list event) : list (value * value) :=
  match t with
  | [] => []
  | EDone err data :: rest => (err, data) :: reported rest
  | _ :: rest => reported rest
  end.

(** The library calls, without their outcomes. *)
Fixpoint calls (t : list event) : list call :=
  match t with
  | [] => []
  | ECall c _ :: rest => c :: calls rest
  | _ :: rest => calls rest
  end.

(** The model a call or a construction goes through, if any. *)
Definition model_of (e : event) : option string :=
  match e with
  | ENew model _ => Some model
  | ECall (Document_save model _) _
  | ECall (Model_create model _) _
  | ECall (Query_exec model _) _
  | ECall (Model_findOne model _) _
  | ECall (Model_findById model _) _
  | ECall (Model_findOneAndUpdate model _ _ _) _
  | ECall (Model_findByIdAndRemove model _) _
  | ECall (Model_deleteMany model _) _ => Some model
  | _ => None
  end.

Definition through_Person (e : event) : Prop :=
  match model_of e with
  | Some model => model = "Person"
  | None => True
  end.

(** What the task phase consists of: entries into operations, console lines,
    and constructions and calls on the Person model. *)
Definition task_step (e : event) : Prop :=
  match e with
  | EEnter _ | ELog _ _ => True
  | ENew _ _ | ECall _ _ => model_of e = Some "Person"
  | _ => False
  end.

(** Entries into operations and calls on a model. *)
Definition task_event (e : event) : bool :=
  match e with
  | EEnter _ | ENew _ _ => true
  | ECall c _ =>
      match c with
      | MongoMemoryServer_create | mongoose_connect _ _
      | connection_close | MongoMemoryServer_stop _ => false
      | _ => true
      end
  | _ => false
  end.

(** A library whose every promise rejects with [e]. *)
Definition rejecting (e : value) : platform unit :=
  mkPlatform unit (fun _ _ d => (VUndefined, d)) (fun _ d => (Rejected e, d))
    (fun _ => VUndefined).

(** An operation that is one library call: entry, the call, the adapter. *)
Definition delegating {D} (P : platform D) (op : operation) (c : call)
  (done : callback D) : M D value :=
  enter op ;; nodeify (lib P c) done.

(** The same, as the specification words it. *)
Definition delegation {D} (P : platform D) (op : operation) (c : call)
  (done : callback D) : M D value :=
  enter op ;; adapted P c done.

Definition prefix_of {A} (l full : list A) : Prop := exists rest, full = (l ++ rest)%list.

Definition is_phase (e : event) : bool :=
  match e with
  | EEnter _ | ELog _ _ => true
  | _ => false
  end.

(** The entries into operations and the console lines of a trace. *)
Definition phases (t : list event) : list event := outline (filter is_phase t).

(** No library promise was rejected. *)
Definition clean (t : list event) : bool :=
  forallb (fun e => match e with ECall _ (Rejected _) => false | _ => true end) t.

(** What a stretch of trace [evs] must look like against the expected outline
    [full]: complete when the computation went through, a prefix when it was
    abandoned by an exception. *)
Definition summary (full evs : list event) (complete : bool) : Prop :=
  Forall task_step evs /\
  if complete
  then phases evs = phases full /\ (clean evs = true -> outline evs = full)
  else prefix_of (phases evs) (phases full).

Definition emits {D A} (full : list event) (m : M D A) : Prop :=
  forall w, exists evs,
    w_trace (snd (m w)) = (w_trace w ++ evs)%list /\
    match fst (m w) with
    | Ret _ => summary full evs true
    | Throw _ => summary full evs false
    | Hang => False
    end.

Definition is_fulfilled (o : outcome) : bool :=
  match o with
  | Fulfilled _ => true
  | Rejected _ => false
  end.

Definition settles {D} (full : list event) (fn : callback D -> M D value) : Prop :=
  forall w, exists evs o d,
    cbToPromise fn w =
      (Ret (List.length (w_promises w)),
       mkWorld d (w_promises w ++ [Some o]) (w_trace w ++ evs)) /\
    summary full evs (is_fulfilled o).

(** The document literal of [createAndSavePerson] (line 70). *)
Definition charlie : value :=
  VObj [ ("name", VStr "Charlie"); ("age", VNum 40);
         ("favoriteFoods", VArr [VStr "sandwich"]) ].

(** A database that holds one person, with [_id] 0. *)
Definition one_person : InMemory.store :=
  InMemory.mkStore
    [ VObj [ ("_id", VId 0); ("name", VStr "Charlie"); ("age", VNum 40);
             ("favoriteFoods", VArr [VStr "sandwich"]) ] ]
    1 false false.

(** *** Documents of the Person collection *)

Definition is_string (v : value) : bool :=
  match v with
  | VStr _ => true
  | _ => false
  end.

(** The schema invariant of a stored document: a String name, a Number age
    when there is one, an array of Strings as favoriteFoods. *)
Definition conforms (doc : value) : bool :=
  is_string (InMemory.field "name" doc)
  && match InMemory.field "age" doc with
     | VUndefined | VNum _ => true
     | _ => false
     end
  && match InMemory.field "favoriteFoods" doc with
     | VArr l => forallb is_string l
     | _ => false
     end.



(** The person likes the food. *)
Definition likes (food : string) (doc : value) : Prop :=
  match InMemory.field "favoriteFoods" doc with
  | VArr l => In (VStr food) l
  | v => v = VStr food
  end.

(** Ascending order of names. *)
Definition name_le (a b : value) : Prop :=
  InMemory.key_leb (InMemory.field "name" a) (InMemory.field "name" b) = true.

(** The comparison the chained query sorts with. *)
Definition name_leb (a b : value) : bool :=
  InMemory.key_leb (InMemory.field "name" a) (InMemory.field "name" b).

(** The filter of the chained query. *)
Definition burritos_filter : value := VObj [("favoriteFoods", VStr "burritos")].

(** The document after [favoriteFoods.push('hamburger')]. *)
Definition with_hamburger (doc : value) : value :=
  match InMemory.field "favoriteFoods" doc with
  | VArr l => set_field "favoriteFoods" (VArr (l ++ [VStr "hamburger"])) doc
  | _ => doc
  end.

(** A callback that records how it was invoked and then throws [x]. *)
Definition throwing_probe {D} (x : value) : callback D :=
  fun err data => emit (EDone err data) ;; throw x.

(** How a settled promise is reported through a Node-style callback. *)
Definition report_of (o : outcome) : value * value :=
  match o with
  | Fulfilled data => (VNull, data)
  | Rejected err => (err, VUndefined)
  end.

(** The operation functions that make one library call, each with its call. *)
Definition single_call_operations {D} (P : platform D)
  (arrayOfPeople personName food personId : value)
  : list ((callback D -> M D value) * call) :=
  [ (createManyPeople P arrayOfPeople, Model_create "Person" arrayOfPeople);
    (findPeopleByName P personName,
     Query_exec "Person" (mkQuery (VObj [("name", personName)]) None None None));
    (findOneByFood P food, Model_findOne "Person" (VObj [("favoriteFoods", food)]));
    (findPersonById P personId, Model_findById "Person" personId);
    (findAndUpdate P personName,
     Model_findOneAndUpdate "Person" (VObj [("name", personName)])
       (VObj [("age", VNum 20)]) (VObj [("new", VBool true)]));
    (removeById P personId, Model_findByIdAndRemove "Person" personId);
    (removeManyPeople P, Model_deleteMany "Person" (VObj [("name", VStr "Mary")]));
    (queryChain P, Query_exec "Person" burritos_query) ].

(** A library whose in-memory server starts and whose other promises all
    reject with [e]. *)
Definition unreachable (e : value) : platform unit :=
  mkPlatform unit (fun _ _ d => (VUndefined, d))
    (fun c d =>
       match c with
       | MongoMemoryServer_create =>
           (Fulfilled (VObj [("uri", VStr "mongodb://memory")]), d)
       | _ => (Rejected e, d)
       end)
    (InMemory.field "uri").

(** A library that starts the server and connects, and whose other promises
    all reject with [e]. *)
Definition unclosable (e : value) : platform unit :=
  mkPlatform unit (fun _ _ d => (VUndefined, d))
    (fun c d =>
       match c with
       | MongoMemoryServer_create =>
           (Fulfilled (VObj [("uri", VStr "mongodb://memory")]), d)
       | mongoose_connect _ _ => (Fulfilled VUndefined, d)
       | _ => (Rejected e, d)
       end)
    (InMemory.field "uri").

(** An event outside the task phase. *)
Definition not_task (e : event) : Prop := task_event e = false.

Open Scope list_scope.

(** * Proofs *)

(** ** Promise cells *)

Lemma nth_error_fresh {A} (l : list A) (x : A) :
  nth_error (l ++ [x]) (List.length l) = Some x.
Proof.
  induction l as [|a l IH]; simpl; auto.
Qed.

Lemma set_nth_fresh {A} (l : list A) (x y : A) :
  set_nth (List.length l) y (l ++ [x]) = l ++ [y].
Proof.
  induction l as [|a l IH]; simpl; congruence.
Qed.

Lemma settle_pending {D} (d : D) (l : list (option outcome)) (t : list event)
  (o : outcome) :
  settle (List.length l) o (mkWorld d (l ++ [None]) t)
  = (Ret tt, mkWorld d (l ++ [Some o]) t).
Proof.
  unfold settle; simpl. rewrite nth_error_fresh, set_nth_fresh. reflexivity.
Qed.

Lemma settle_settled {D} (d : D) (l : list (option outcome)) (t : list event)
  (o o' : outcome) :
  settle (List.length l) o' (mkWorld d (l ++ [Some o]) t)
  = (Ret tt, mkWorld d (l ++ [Some o]) t).
Proof.
  unfold settle; simpl. rewrite nth_error_fresh. reflexivity.
Qed.

Lemma await_settled {D} (d : D) (l : list (option outcome)) (t : list event)
  (o : outcome) :
  await_cell (List.length l) (mkWorld d (l ++ [Some o]) t)
  = (match o with Fulfilled v => Ret v | Rejected e => Throw e end,
     mkWorld d (l ++ [Some o]) t).
Proof.
  unfold await_cell; simpl. rewrite nth_error_fresh. destruct o; reflexivity.
Qed.

(** The callback of [cbToPromise] on a pending promise. *)
Lemma promise_callback_pending {D} (d : D) l t (err data : value) :
  promise_callback (List.length l) err data (mkWorld d (l ++ [None]) t)
  = (Ret VUndefined,
     mkWorld d (l ++ [Some (if truthy err then Rejected err else Fulfilled data)]) t).
Proof.
  unfold promise_callback.
  destruct (truthy err); unfold bind; rewrite settle_pending; reflexivity.
Qed.

Lemma promise_callback_settled {D} (d : D) l t o (err data : value) :
  promise_callback (List.length l) err data (mkWorld d (l ++ [Some o]) t)
  = (Ret VUndefined, mkWorld d (l ++ [Some o]) t).
Proof.
  unfold promise_callback.
  destruct (truthy err); unfold bind; rewrite settle_settled; reflexivity.
Qed.

Lemma promise_callback_returns {D} (i : nat) :
  returns_normally (@promise_callback D i).
Proof.
  intros err data w e w'. unfold promise_callback, settle, bind, ret.
  destruct (truthy err); destruct (nth_error (w_promises w) i) as [[?|]|];
    discriminate.
Qed.

Lemma probe_returns {D} : returns_normally (@probe D).
Proof.
  intros err data w e w'. unfold probe, bind, emit, ret. discriminate.
Qed.

(** The adapter on the callback of a pending promise settles it as
    [roundtrip] says. *)
Lemma nodeify_pending {D} (p : M D outcome) (d d' : D) l t t' (o : outcome) :
  p (mkWorld d (l ++ [None]) t) = (Ret o, mkWorld d' (l ++ [None]) t') ->
  nodeify p (promise_callback (List.length l)) (mkWorld d (l ++ [None]) t)
  = (Ret VUndefined, mkWorld d' (l ++ [Some (roundtrip o)]) t').
Proof.
  intros Hp. unfold nodeify, bind at 1. rewrite Hp.
  destruct o as [v|e]; simpl.
  - unfold bind, then_, on_data, bind. rewrite promise_callback_pending. reflexivity.
  - unfold bind, catch_, on_error, bind, ret. rewrite promise_callback_pending.
    simpl. destruct (truthy e); reflexivity.
Qed.

(** ** Outlines and summaries *)

Lemma outline_event_idem (e : event) :
  outline_event (outline_event e) = outline_event e.
Proof.
  destruct e as [| | | |c o| |]; simpl; try reflexivity.
  destruct c; reflexivity.
Qed.

Lemma is_phase_outline (e : event) : is_phase (outline_event e) = is_phase e.
Proof.
  destruct e; reflexivity.
Qed.

Lemma phases_outline (t : list event) : phases (outline t) = phases t.
Proof.
  unfold phases, outline.
  induction t as [|e t IH]; simpl; auto.
  rewrite is_phase_outline. destruct (is_phase e); simpl.
  - rewrite outline_event_idem. f_equal. exact IH.
  - exact IH.
Qed.

Lemma phases_app (a b : list event) : phases (a ++ b) = phases a ++ phases b.
Proof.
  unfold phases, outline. rewrite filter_app, map_app. reflexivity.
Qed.

Lemma outline_app (a b : list event) : outline (a ++ b) = outline a ++ outline b.
Proof.
  apply map_app.
Qed.

Lemma clean_app (a b : list event) : clean (a ++ b) = clean a && clean b.
Proof.
  apply forallb_app.
Qed.

Lemma summary_exact (full evs : list event) (complete : bool) :
  Forall task_step evs -> outline evs = full -> summary full evs complete.
Proof.
  intros HP <-. split; [exact HP|].
  destruct complete.
  - split; [symmetry; apply phases_outline | reflexivity].
  - exists []. rewrite app_nil_r. apply phases_outline.
Qed.

Lemma summary_partial (full evs : list event) :
  Forall task_step evs -> prefix_of (phases evs) (phases full) ->
  summary full evs false.
Proof.
  intros HP Hpre. split; assumption.
Qed.

Lemma summary_app (f1 f2 e1 e2 : list event) (complete : bool) :
  summary f1 e1 true -> summary f2 e2 complete ->
  summary (f1 ++ f2) (e1 ++ e2) complete.
Proof.
  intros [HP1 [Hph1 Hout1]] [HP2 H2].
  split; [apply Forall_app; split; assumption|].
  destruct complete.
  - destruct H2 as [Hph2 Hout2]. split.
    + rewrite !phases_app. congruence.
    + rewrite clean_app, outline_app. intros Hc.
      apply andb_true_iff in Hc. destruct Hc as [Hc1 Hc2].
      rewrite (Hout1 Hc1), (Hout2 Hc2). reflexivity.
  - destruct H2 as [rest Hrest]. exists rest.
    rewrite !phases_app, Hph1, Hrest, app_assoc. reflexivity.
Qed.

Lemma summary_abandoned (f1 f2 e1 : list event) :
  summary f1 e1 false -> summary (f1 ++ f2) e1 false.
Proof.
  intros [HP [rest Hrest]]. split; [exact HP|].
  exists (rest ++ phases f2). rewrite phases_app, Hrest, app_assoc. reflexivity.
Qed.

(** ** Rules for [emits] and [settles] *)

Section Rules.

Context {D : Type}.

Lemma emits_ret {A} (a : A) : emits [] (@ret D A a).
Proof.
  intros w. exists []. simpl. rewrite app_nil_r. split; [reflexivity|].
  apply summary_exact; constructor.
Qed.

Lemma emits_log (line : string) (args : list value) :
  emits [ELog line []] (@console_log D line args).
Proof.
  intros w. exists [ELog line args]. simpl. split; [reflexivity|].
  apply summary_exact; [repeat constructor | reflexivity].
Qed.

Lemma emits_lift {A} (r : result A) : r <> Hang -> emits [] (@lift D A r).
Proof.
  intros Hr w. exists []. unfold lift; simpl. rewrite app_nil_r.
  split; [reflexivity|].
  destruct r; [apply summary_exact; constructor
              | apply summary_exact; constructor | congruence].
Qed.

Lemma emits_bind {A B} (f1 f2 : list event) (m : M D A) (k : A -> M D B) :
  emits f1 m -> (forall a, emits f2 (k a)) -> emits (f1 ++ f2) (bind m k).
Proof.
  intros Hm Hk w. destruct (Hm w) as [e1 [Ht1 Hs1]].
  unfold bind. destruct (m w) as [[a|e|] w1]; simpl in *.
  - destruct (Hk a w1) as [e2 [Ht2 Hs2]]. exists (e1 ++ e2).
    rewrite Ht2, Ht1, app_assoc. split; [reflexivity|].
    destruct (fst (k a w1)); try contradiction; apply summary_app; assumption.
  - exists e1. split; [exact Ht1|]. apply summary_abandoned. exact Hs1.
  - contradiction.
Qed.

(** An operation wrapped by [cbToPromise] and awaited. *)
Lemma emits_await {B} (f1 f2 : list event) (fn : callback D -> M D value)
  (k : value -> M D B) :
  settles f1 fn -> (forall v, emits f2 (k v)) ->
  emits (f1 ++ f2) (h <- cbToPromise fn ;; v <- await_cell h ;; k v).
Proof.
  intros Hfn Hk w. destruct (Hfn w) as [e1 [o [d [Hrun Hs1]]]].
  set (w1 := mkWorld d (w_promises w ++ [Some o]) (w_trace w ++ e1)) in *.
  assert (Heq : (h <- cbToPromise fn ;; v <- await_cell h ;; k v) w =
                match o with
                | Fulfilled v => k v w1
                | Rejected e => (Throw e, w1)
                end).
  { unfold bind at 1. rewrite Hrun. unfold bind at 1. subst w1.
    rewrite await_settled. destruct o; reflexivity. }
  rewrite Heq. clear Heq Hrun.
  destruct o as [v|e]; simpl in *.
  - destruct (Hk v w1) as [e2 [Ht2 Hs2]].
    exists (e1 ++ e2). rewrite Ht2. simpl. rewrite app_assoc.
    split; [reflexivity|].
    destruct (fst (k v w1)); try contradiction; apply summary_app; assumption.
  - exists e1. split; [reflexivity|]. apply summary_abandoned. exact Hs1.
Qed.

(** A synchronous exception before the operation is entered rejects the
    promise. *)
Lemma settles_lift (full : list event) (r : result value)
  (f : value -> callback D -> M D value) :
  r <> Hang -> (forall v, settles full (f v)) ->
  settles full (fun done => v <- lift r ;; f v done).
Proof.
  intros Hr Hf w. destruct r as [v|e|]; [| |congruence].
  - destruct (Hf v w) as [evs [o [d [Hrun Hs]]]].
    exists evs, o, d. split; [|exact Hs].
    rewrite <- Hrun. reflexivity.
  - exists [], (Rejected e), (w_ext w). split.
    + unfold cbToPromise, bind, lift; simpl.
      rewrite settle_pending, app_nil_r. reflexivity.
    + apply summary_partial; [constructor | exists (phases full); reflexivity].
Qed.

Context (P : platform D).

Lemma lib_run (c : call) (w : world D) :
  lib P c w =
  (Ret (fst (exec P c (w_ext w))),
   mkWorld (snd (exec P c (w_ext w))) (w_promises w)
     (w_trace w ++ [ECall c (fst (exec P c (w_ext w)))])).
Proof.
  unfold lib. destruct (exec P c (w_ext w)); reflexivity.
Qed.

Lemma cbToPromise_delegating (op : operation) (c : call) (w : world D) :
  cbToPromise (delegating P op c) w =
  (Ret (List.length (w_promises w)),
   mkWorld (snd (exec P c (w_ext w)))
     (w_promises w ++ [Some (roundtrip (fst (exec P c (w_ext w))))])
     (w_trace w ++ [EEnter op; ECall c (fst (exec P c (w_ext w)))])).
Proof.
  unfold cbToPromise, delegating, enter, emit. unfold bind at 1.
  erewrite nodeify_pending by (rewrite lib_run; simpl; reflexivity).
  rewrite <- app_assoc. reflexivity.
Qed.

Lemma settles_delegating (op : operation) (c : call) :
  task_step (ECall c (Fulfilled VUndefined)) ->
  settles [EEnter op; called (outline_call c)] (delegating P op c).
Proof.
  intros HP w. eexists _, _, _. split; [apply cbToPromise_delegating|].
  apply summary_exact; [|reflexivity].
  repeat constructor. exact HP.
Qed.

End Rules.

Section Steps.
Context {D : Type} (P : platform D).

Lemma push_throws_truthy (person food x : value) :
  push_favoriteFoods person food = Throw x -> truthy x = true.
Proof.
  unfold push_favoriteFoods.
  destruct person as [| | | | | | |fields|]; simpl;
    try (intros [= <-]; reflexivity); try discriminate.
  destruct (lookup "favoriteFoods" fields) as [[]|]; simpl;
    try (intros [= <-]; reflexivity); discriminate.
Qed.

Lemma push_never_hangs (person food : value) :
  push_favoriteFoods person food <> Hang.
Proof.
  unfold push_favoriteFoods.
  destruct person as [| | | | | | |fields|]; simpl; try discriminate.
  destruct (lookup "favoriteFoods" fields) as [[]|]; simpl; discriminate.
Qed.

(** The two reactions at the end of every chain, on a pending promise. *)
Lemma reactions_pending (o : outcome) (d : D) l t :
  (p1 <- then_ o (on_data (promise_callback (List.length l))) ;;
   p2 <- catch_ p1 (on_error (promise_callback (List.length l))) ;;
   discard p2 ;; ret VUndefined) (mkWorld d (l ++ [None]) t)
  = (Ret VUndefined, mkWorld d (l ++ [Some (roundtrip o)]) t).
Proof.
  destruct o as [v|e]; simpl.
  - unfold bind, then_, on_data, bind. rewrite promise_callback_pending. reflexivity.
  - unfold bind, catch_, on_error, bind, ret. rewrite promise_callback_pending.
    simpl. destruct (truthy e); reflexivity.
Qed.

(** The same on a promise that is already settled: nothing changes. *)
Lemma reactions_settled (o o' : outcome) (d : D) l t :
  (p1 <- then_ o (on_data (promise_callback (List.length l))) ;;
   p2 <- catch_ p1 (on_error (promise_callback (List.length l))) ;;
   discard p2 ;; ret VUndefined) (mkWorld d (l ++ [Some o']) t)
  = (Ret VUndefined, mkWorld d (l ++ [Some o']) t).
Proof.
  destruct o as [v|e]; simpl.
  - unfold bind, then_, on_data, bind. rewrite promise_callback_settled. reflexivity.
  - unfold bind, catch_, on_error, bind, ret. rewrite promise_callback_settled.
    reflexivity.
Qed.

Lemma settles_findEditThenSave (personId : value) :
  settles [ EEnter FindEditThenSave;
            called (Model_findById "Person" VUndefined);
            called (Document_save "Person" VUndefined) ]
    (findEditThenSave P personId).
Proof.
  intros w.
  unfold cbToPromise, findEditThenSave, enter, emit. unfold bind at 1.
  unfold bind at 1. rewrite lib_run. cbn [w_ext w_promises w_trace fst snd].
  rewrite <- app_assoc. cbn [app].
  destruct (exec P (Model_findById "Person" personId) (w_ext w)) as [[person|e] d1];
    cbn [fst snd].
  - destruct (truthy person) eqn:Hperson.
    + destruct (push_favoriteFoods person (VStr "hamburger")) as [person'|x|] eqn:Hpush.
      * unfold bind at 1. unfold then_ at 1. rewrite Hperson. cbn [negb].
        unfold bind at 1, lift at 1. rewrite Hpush.
        unfold bind at 1. rewrite lib_run. unfold ret at 1.
        cbn [w_ext w_promises w_trace fst snd resolution].
        rewrite reactions_pending. rewrite <- app_assoc. cbn [app].
        eexists _, _, _. split; [reflexivity|].
        destruct (exec P (Document_save "Person" person') d1) as [[v|e] d2]; cbn [fst snd roundtrip].
        -- apply summary_exact; [repeat constructor | reflexivity].
        -- split; [repeat constructor|].
           destruct (truthy e); cbn [is_fulfilled].
           ++ exists []. reflexivity.
           ++ split; [reflexivity | discriminate].
      * unfold bind at 1. unfold then_ at 1. rewrite Hperson. cbn [negb].
        unfold bind at 1, lift at 1. rewrite Hpush.
        rewrite reactions_pending. cbn [roundtrip].
        rewrite (push_throws_truthy _ _ _ Hpush).
        eexists _, _, _. split; [reflexivity|].
        apply summary_partial; [repeat constructor | exists []; reflexivity].
      * elim (push_never_hangs _ _ Hpush).
    + unfold bind at 1. unfold then_ at 1. rewrite Hperson. cbn [negb].
      unfold bind at 1. rewrite promise_callback_pending. unfold ret at 1.
      cbn [truthy resolution].
      rewrite reactions_settled.
      eexists _, _, _. split; [reflexivity|].
      apply summary_partial; [repeat constructor | exists []; reflexivity].
  - unfold bind at 1. cbn [then_]. unfold ret at 1.
    rewrite reactions_pending. cbn [roundtrip].
    eexists _, _, _. split; [reflexivity|].
    split; [repeat constructor|].
    destruct (truthy e); cbn [is_fulfilled].
    + exists []. reflexivity.
    + split; [reflexivity | discriminate].
Qed.

Lemma settles_createAndSavePerson :
  settles [ EEnter CreateAndSavePerson;
            ENew "Person" (VObj [ ("name", VStr "Charlie"); ("age", VNum 40);
                                  ("favoriteFoods", VArr [VStr "sandwich"]) ]);
            called (Document_save "Person" VUndefined) ]
    (createAndSavePerson P).
Proof.
  intros w.
  unfold cbToPromise, createAndSavePerson, enter, emit. unfold bind at 1.
  unfold bind at 1, new_ at 1. cbn [w_ext w_promises w_trace].
  destruct (construct P "Person" _ (w_ext w)) as [person d1].
  unfold bind at 1. rewrite lib_run. cbn [w_ext w_promises w_trace fst snd].
  rewrite reactions_pending. rewrite <- !app_assoc. cbn [app].
  eexists _, _, _. split; [reflexivity|].
  apply summary_exact; [repeat constructor | reflexivity].
Qed.

Lemma get_prop_returns (v : value) (k : string) : get_prop v k <> Hang.
Proof.
  destruct v; simpl; try discriminate.
  - destruct (k =? "length")%string; discriminate.
  - destruct (k =? "length")%string; discriminate.
  - destruct (lookup k fields); discriminate.
  - destruct (k =? "name")%string; [|destruct (k =? "message")%string]; discriminate.
Qed.

Lemma get_index0_returns (v : value) : get_index0 v <> Hang.
Proof.
  destruct v as [| | | |s| | | |]; simpl; try discriminate.
  destruct s; discriminate.
Qed.

(** Every run of [runAllTasks] follows [tasks_outline], on any platform. *)
Lemma emits_runAllTasks : emits tasks_outline (runAllTasks P).
Proof.
  cut (exists full, emits full (runAllTasks P) /\ full = tasks_outline).
  { intros [full [H <-]]. exact H. }
  eexists. split.
  - unfold runAllTasks.
    eapply emits_bind; [apply emits_log|intros _].
    eapply emits_await; [apply settles_createAndSavePerson|intros savedPerson].
    eapply emits_bind; [apply emits_log|intros _].
    eapply emits_await;
      [apply (settles_delegating P CreateManyPeople (Model_create "Person" peopleData)); reflexivity
      |intros many].
    eapply emits_bind; [apply emits_lift, get_prop_returns|intros many_length].
    eapply emits_bind; [apply emits_log|intros _].
    eapply emits_await;
      [apply (settles_delegating P FindPeopleByName
                (Query_exec "Person" (Model_find (VObj [("name", VStr "Mary")]))));
       reflexivity
      |intros foundMary].
    eapply emits_bind; [apply emits_log|intros _].
    eapply emits_await;
      [apply (settles_delegating P FindOneByFood
                (Model_findOne "Person" (VObj [("favoriteFoods", VStr "burritos")])));
       reflexivity
      |intros oneWithBurritos].
    eapply emits_bind; [apply emits_log|intros _].
    eapply emits_await;
      [apply (settles_lift
                [EEnter FindPersonById; called (Model_findById "Person" VUndefined)]);
       [apply get_prop_returns|intros id];
       apply (settles_delegating P FindPersonById (Model_findById "Person" id));
       reflexivity
      |intros foundById].
    eapply emits_bind; [apply emits_log|intros _].
    eapply emits_await;
      [apply settles_lift; [apply get_prop_returns|intros id];
       apply settles_findEditThenSave
      |intros edited].
    eapply emits_bind; [apply emits_log|intros _].
    eapply emits_await;
      [apply (settles_delegating P FindAndUpdate
                (Model_findOneAndUpdate "Person" (VObj [("name", VStr "John")])
                   (VObj [("age", VNum 20)]) (VObj [("new", VBool true)])));
       reflexivity
      |intros updated].
    eapply emits_bind; [apply emits_log|intros _].
    eapply emits_await;
      [apply (settles_lift
                [EEnter RemoveById; called (Model_findByIdAndRemove "Person" VUndefined)]);
       [apply get_index0_returns|intros first];
       apply settles_lift; [apply get_prop_returns|intros id];
       apply (settles_delegating P RemoveById (Model_findByIdAndRemove "Person" id));
       reflexivity
      |intros removed].
    eapply emits_bind; [apply emits_log|intros _].
    eapply emits_await;
      [apply (settles_delegating P RemoveManyPeople
                (Model_deleteMany "Person" (VObj [("name", VStr "Mary")])));
       reflexivity
      |intros removeManyResult].
    eapply emits_bind; [apply emits_log|intros _].
    eapply emits_await;
      [apply (settles_delegating P QueryChain (Query_exec "Person" burritos_query));
       reflexivity
      |intros chainResult].
    eapply emits_bind; [apply emits_log|intros _].
    eapply emits_bind; [apply emits_log|intros _].
    apply emits_ret.
  - reflexivity.
Qed.

End Steps.

(** ** The order of the tasks *)

Lemma since_app {D} (w w' : world D) (evs : list event) :
  w_trace w' = w_trace w ++ evs -> since w w' = evs.
Proof.
  unfold since. intros ->. induction (w_trace w); simpl; auto.
Qed.

Lemma entered_app (a b : list event) : entered (a ++ b) = entered a ++ entered b.
Proof.
  induction a as [|e a IH]; simpl; auto.
  destruct e; simpl; rewrite ?IH; reflexivity.
Qed.

Lemma entered_phases (t : list event) : entered (phases t) = entered t.
Proof.
  unfold phases, outline.
  induction t as [|e t IH]; simpl; auto.
  destruct e; simpl; rewrite ?IH; reflexivity.
Qed.

Lemma entered_prefix (t full : list event) :
  prefix_of (phases t) (phases full) -> prefix_of (entered t) (entered full).
Proof.
  intros [rest H]. exists (entered rest).
  rewrite <- (entered_phases full), H, entered_app, entered_phases. reflexivity.
Qed.


(** What [emits_runAllTasks] says of one run, with the events named. *)
Lemma runAllTasks_run {D} (P : platform D) (w : world D) :
  exists evs,
    since w (snd (runAllTasks P w)) = evs /\
    w_trace (snd (runAllTasks P w)) = w_trace w ++ evs /\
    Forall task_step evs /\
    match fst (runAllTasks P w) with
    | Ret _ =>
        phases evs = phases tasks_outline /\
        (clean evs = true -> outline evs = tasks_outline)
    | Throw _ => prefix_of (phases evs) (phases tasks_outline)
    | Hang => False
    end.
Proof.
  destruct (emits_runAllTasks P w) as [evs [Ht Hs]].
  exists evs. split; [apply since_app, Ht|]. split; [exact Ht|].
  destruct (fst (runAllTasks P w)); try contradiction;
    destruct Hs as [HP Hs]; split; assumption.
Qed.



(** C5, amended.  A run of [runAllTasks] that fulfils has entered exactly
    ten operations, all different: the ten operation functions of the script;
    no run enters more. *)
Theorem ten_operations {D} (P : platform D) (w : world D) :
  let run := runAllTasks P w in
  let ops := entered (since w (snd run)) in
  List.length ops <= 10 /\
  (forall v, fst run = Ret v ->
     List.length ops = 10 /\ NoDup ops /\ ops = all_operations).
Proof.
  cbv zeta. destruct (runAllTasks_run P w) as [evs [-> [_ [_ Hs]]]].
  assert (Hnd : NoDup all_operations).
  { unfold all_operations. repeat constructor; simpl; intuition discriminate. }
  destruct (fst (runAllTasks P w)) as [v|e|]; [| |contradiction].
  - destruct Hs as [Hph _].
    assert (He : entered evs = all_operations).
    { rewrite <- entered_phases, Hph. reflexivity. }
    rewrite He. split; [simpl; lia|]. intros _ _. auto.
  - apply entered_prefix in Hs. destruct Hs as [rest Hrest].
    split; [|discriminate].
    change (entered tasks_outline) with all_operations in Hrest.
    apply (f_equal (@List.length operation)) in Hrest.
    rewrite length_app in Hrest. simpl in Hrest. lia.
Qed.

Lemma ten_operations_witness :
  List.length (entered (since (InMemory.fresh_world InMemory.empty)
                          (snd (runAllTasks InMemory.mapper
                                  (InMemory.fresh_world InMemory.empty)))))
  = 10.
Proof.
  destruct (ten_operations InMemory.mapper (InMemory.fresh_world InMemory.empty))
    as [_ H].
  destruct (H VUndefined) as [Hlen _].
  - vm_compute. reflexivity.
  - exact Hlen.
Defined.

(** C5 as stated fails: the run on the reference platform enters ten
    operations, not eight. *)
Lemma eight_operations_refuted :
  List.length (entered (w_trace (snd (runAllTasks InMemory.mapper
                                        (InMemory.fresh_world InMemory.empty)))))
  <> 8.
Proof.
  vm_compute. discriminate.
Qed.

(** ** One schema, one model *)

Lemma task_step_through_Person (e : event) : task_step e -> through_Person e.
Proof.
  unfold through_Person.
  destruct e; simpl; try exact (fun _ => I); try contradiction.
  - intros [= ->]. reflexivity.
  - intros ->. reflexivity.
Qed.

(** C7.  Exactly one model is registered, [Person], with [personSchema]; the
    schema has exactly the paths [name] (a required String), [age] (a Number)
    and [favoriteFoods] (an array of Strings whose default is the empty
    array); and on every platform every construction and every model call of
    a run of [runAllTasks] goes through [Person]. *)
Theorem one_schema_one_model {D} (P : platform D) (w : world D) :
  models = [("Person", personSchema)] /\
  map path personSchema = ["name"; "age"; "favoriteFoods"]%string /\
  find (fun sp => path sp =? "name")%string personSchema
    = Some (mkPath "name" TString true None) /\
  find (fun sp => path sp =? "age")%string personSchema
    = Some (mkPath "age" TNumber false None) /\
  find (fun sp => path sp =? "favoriteFoods")%string personSchema
    = Some (mkPath "favoriteFoods" (TArrayOf TString) false (Some (VArr []))) /\
  Forall through_Person (since w (snd (runAllTasks P w))).
Proof.
  repeat (split; [reflexivity|]).
  destruct (runAllTasks_run P w) as [evs [-> [_ [HP _]]]].
  eapply Forall_impl; [|exact HP]. exact task_step_through_Person.
Qed.

(** ** Delegation *)

Section Delegation.

Context {D : Type} (P : platform D).

(** For a callback that returns normally the two reactions amount to one
    invocation. *)
Lemma reactions_adapted (done : callback D) (o : outcome) (w : world D) :
  returns_normally done ->
  (p1 <- then_ o (on_data done) ;;
   p2 <- catch_ p1 (on_error done) ;;
   discard p2 ;; ret VUndefined) w
  = match o with
    | Fulfilled data => (done VNull data ;; ret VUndefined) w
    | Rejected err => (done err VUndefined ;; ret VUndefined) w
    end.
Proof.
  intros Hdone. destruct o as [v|e].
  - cbv [bind then_ catch_ on_data on_error discard ret].
    destruct (done VNull v w) as [[r|x|] w'] eqn:Hrun; try reflexivity.
    elim (Hdone _ _ _ _ _ Hrun).
  - cbv [bind then_ catch_ on_data on_error discard ret].
    destruct (done e VUndefined w) as [[r|x|] w'] eqn:Hrun; try reflexivity.
    elim (Hdone _ _ _ _ _ Hrun).
Qed.

Lemma nodeify_adapted (c : call) (done : callback D) (w : world D) :
  returns_normally done -> nodeify (lib P c) done w = adapted P c done w.
Proof.
  intros Hdone. unfold nodeify, adapted.
  unfold bind at 1. symmetry. unfold bind at 1. symmetry.
  rewrite lib_run. rewrite reactions_adapted by exact Hdone.
  destruct (fst (exec P c (w_ext w))); reflexivity.
Qed.

Lemma delegating_delegation (op : operation) (c : call) (done : callback D)
  (w : world D) :
  returns_normally done -> delegating P op c done w = delegation P op c done w.
Proof.
  intros Hdone. unfold delegating, delegation, bind, enter, emit.
  apply nodeify_adapted. exact Hdone.
Qed.

End Delegation.




(** ** Reporting through the callback *)

(** C4, at the failing input: no person has the id, and the callback is
    invoked twice, first with the error and then with [(null, undefined)]. *)
Theorem findEditThenSave_reports_twice :
  reported (w_trace (snd (findEditThenSave InMemory.mapper (VId 7) probe
                            (InMemory.fresh_world InMemory.empty))))
  = [ (VError "Error" "Person not found", VUndefined); (VNull, VUndefined) ].
Proof.
  vm_compute. reflexivity.
Qed.

(** ** The adapters *)

Lemma promise_state_fresh {D} (d : D) l t (s : option outcome) :
  promise_state (List.length l) (mkWorld d (l ++ [s]) t) = s.
Proof.
  unfold promise_state; simpl. rewrite nth_error_fresh. reflexivity.
Qed.

Lemma cbToPromise_nodeify {D} (P : platform D) (c : call) (w : world D) :
  cbToPromise (nodeify (lib P c)) w =
  (Ret (List.length (w_promises w)),
   mkWorld (snd (exec P c (w_ext w)))
     (w_promises w ++ [Some (roundtrip (fst (exec P c (w_ext w))))])
     (w_trace w ++ [ECall c (fst (exec P c (w_ext w)))])).
Proof.
  unfold cbToPromise.
  erewrite nodeify_pending by (rewrite lib_run; simpl; reflexivity).
  reflexivity.
Qed.

(** C6, amended.  A library promise converted to callback style and back
    with [cbToPromise] fulfils with the same value when the library promise
    fulfils, and rejects with the same error when the library promise rejects
    with a truthy error; [cbToPromise] rejects with the exception when the
    wrapped function throws while the promise is still pending. *)
Theorem adapters_roundtrip {D} (P : platform D) (c : call) (w : world D) :
  let h := List.length (w_promises w) in
  let run := cbToPromise (nodeify (lib P c)) w in
  fst run = Ret h /\
  (forall v, fst (exec P c (w_ext w)) = Fulfilled v ->
             promise_state h (snd run) = Some (Fulfilled v)) /\
  (forall e, fst (exec P c (w_ext w)) = Rejected e -> truthy e = true ->
             promise_state h (snd run) = Some (Rejected e)) /\
  (forall (fn : callback D -> M D value) e w2,
     fn (promise_callback h)
        (mkWorld (w_ext w) (w_promises w ++ [None]) (w_trace w)) = (Throw e, w2) ->
     nth_error (w_promises w2) h = Some None ->
     fst (cbToPromise fn w) = Ret h /\
     promise_state h (snd (cbToPromise fn w)) = Some (Rejected e)).
Proof.
  cbv zeta. rewrite cbToPromise_nodeify. cbn [fst snd].
  split; [reflexivity|]. split; [|split].
  - intros v Hv. rewrite promise_state_fresh, Hv. reflexivity.
  - intros e He Ht. rewrite promise_state_fresh, He. simpl. rewrite Ht. reflexivity.
  - intros fn e w2 Hfn Hpending. unfold cbToPromise. rewrite Hfn.
    unfold bind, settle, ret. rewrite Hpending. cbn [fst snd].
    split; [reflexivity|].
    unfold promise_state; cbn [w_promises].
    clear Hfn. revert Hpending. generalize (w_promises w2) as l.
    induction (List.length (w_promises w)) as [|n IH]; intros [|x l]; simpl;
      try discriminate.
    + intros _. reflexivity.
    + apply IH.
Qed.

(** A truthy rejection on the reference platform, and a function that throws
    at once. *)
Lemma adapters_roundtrip_witness :
  promise_state 0
    (snd (cbToPromise (nodeify (lib InMemory.mapper (Model_findById "Person" (VStr "x"))))
            (InMemory.fresh_world InMemory.empty)))
  = Some (Rejected (InMemory.cast_error "_id")) /\
  promise_state 0
    (snd (cbToPromise (fun _ => throw (VStr "boom"))
            (InMemory.fresh_world InMemory.empty)))
  = Some (Rejected (VStr "boom")).
Proof.
  destruct (adapters_roundtrip InMemory.mapper (Model_findById "Person" (VStr "x"))
              (InMemory.fresh_world InMemory.empty)) as [_ [_ [Hrej Hthrow]]].
  split.
  - apply Hrej; reflexivity.
  - apply (Hthrow (fun _ => throw (VStr "boom")) (VStr "boom")
             (mkWorld InMemory.empty [None] [])); reflexivity.
Defined.

(** C6 as stated fails when the library rejects with a falsy value: the
    promise of [cbToPromise] fulfils with [undefined]. *)
Lemma roundtrip_loses_falsy_rejection :
  fst (exec (rejecting VNull) connection_close tt) = Rejected VNull /\
  promise_state 0
    (snd (cbToPromise (nodeify (lib (rejecting VNull) connection_close))
            (mkWorld tt [] [])))
  = Some (Fulfilled VUndefined).
Proof.
  split; reflexivity.
Qed.

(** ** Releasing the connection and the server *)

Section Release.

Context {D : Type} (P : platform D).

(** The [finally] block: [close] is called first; the server is stopped only
    after [close] has fulfilled, and only when there is a handle. *)
Lemma release_run (mongod : value) (w : world D) :
  exists closed after,
    w_trace (snd (release P mongod w))
      = w_trace w ++ ECall connection_close closed :: after /\
    Forall not_task after /\
    fst (release P mongod w) <> Hang /\
    (forall c o, In (ECall c o) after -> c = MongoMemoryServer_stop mongod) /\
    (is_fulfilled closed = true ->
       ((exists o, In (ECall (MongoMemoryServer_stop mongod) o) after)
        <-> truthy mongod = true)).
Proof.
  remember (release P mongod w) as run eqn:Hrun.
  unfold release in Hrun. unfold bind at 1 in Hrun. rewrite lib_run in Hrun.
  destruct (exec P connection_close (w_ext w)) as [[x|e] d1]; cbn [fst snd] in Hrun.
  - unfold bind at 1, await at 1, ret at 1 in Hrun.
    destruct (truthy mongod) eqn:Hm.
    + unfold bind at 1 in Hrun. unfold bind at 1 in Hrun. rewrite lib_run in Hrun.
      cbn [w_ext w_promises w_trace] in Hrun.
      destruct (exec P (MongoMemoryServer_stop mongod) d1) as [[y|e] d2];
        cbn in Hrun; rewrite <- ?app_assoc in Hrun; cbn [app] in Hrun; subst run.
      * exists (Fulfilled x),
          [ECall (MongoMemoryServer_stop mongod) (Fulfilled y);
           ELog "Connection closed." []].
        cbn. rewrite <- ?app_assoc. cbn [app].
        split; [reflexivity|]. split; [repeat constructor|].
        split; [discriminate|]. split.
        -- intros c o [[= <- <-]|[[=]|[]]]. reflexivity.
        -- intros _. split; [reflexivity|]. intros _. eexists. left. reflexivity.
      * exists (Fulfilled x), [ECall (MongoMemoryServer_stop mongod) (Rejected e)].
        cbn. rewrite <- ?app_assoc. cbn [app].
        split; [reflexivity|]. split; [repeat constructor|].
        split; [discriminate|]. split.
        -- intros c o [[= <- <-]|[]]. reflexivity.
        -- intros _. split; [reflexivity|]. intros _. eexists. left. reflexivity.
    + cbn in Hrun. rewrite <- ?app_assoc in Hrun; cbn [app] in Hrun; subst run.
      exists (Fulfilled x), [ELog "Connection closed." []].
      cbn. rewrite <- ?app_assoc. cbn [app].
      split; [reflexivity|]. split; [repeat constructor|].
      split; [discriminate|]. split.
      * intros c o [[=]|[]].
      * intros _. split; [|discriminate]. intros [o [[=]|[]]].
  - cbn in Hrun. subst run. exists (Rejected e), []. cbn.
    split; [reflexivity|]. split; [constructor|].
    split; [discriminate|]. split.
    + intros c o [].
    + discriminate.
Qed.

(** The reaction to an established connection: the tasks run, their error is
    logged when there is one, and the release follows in both cases. *)
Lemma connected_run (mongod : value) (w : world D) :
  exists tevs mark closed after,
    w_trace (snd (connected P mongod w))
      = w_trace w ++ ELog "Successfully connected to MongoDB" [] :: tevs
          ++ mark :: ECall connection_close closed :: after /\
    Forall task_step tevs /\
    (mark = ELog "All tasks completed." [] \/
     exists err, mark = EError "Error running tasks:" [err]) /\
    Forall not_task after /\
    fst (connected P mongod w) <> Hang /\
    (forall c o, In (ECall c o) after -> c = MongoMemoryServer_stop mongod) /\
    (is_fulfilled closed = true ->
       ((exists o, In (ECall (MongoMemoryServer_stop mongod) o) after)
        <-> truthy mongod = true)).
Proof.
  remember (connected P mongod w) as run eqn:Hrun.
  unfold connected in Hrun. unfold bind at 1 in Hrun.
  unfold console_log at 1, emit at 1 in Hrun.
  set (w1 := mkWorld (w_ext w) (w_promises w)
               (w_trace w ++ [ELog "Successfully connected to MongoDB" []])) in Hrun.
  unfold bind at 1, try_finally, try_catch in Hrun. unfold bind at 1 in Hrun.
  destruct (runAllTasks_run P w1) as [tevs [_ [Ht [HP Hs]]]].
  destruct (runAllTasks P w1) as [[v|err|] w2]; cbn [fst snd] in Ht, Hs;
    [| |contradiction].
  - unfold console_log at 1, emit at 1 in Hrun.
    set (w3 := mkWorld (w_ext w2) (w_promises w2)
                 (w_trace w2 ++ [ELog "All tasks completed." []])) in Hrun.
    destruct (release_run mongod w3)
      as [closed [after [Hrt [Hnt [Hnh [Hstop Hiff]]]]]].
    exists tevs, (ELog "All tasks completed." []), closed, after.
    unfold bind at 1 in Hrun.
    destruct (release P mongod w3) as [[[]|e|] w4]; cbn in Hrun, Hrt, Hnh; subst run;
      unfold ret; cbn [fst snd]; (split; [|split; [exact HP|split; [left; reflexivity|
        split; [exact Hnt|split; [try discriminate; try (elim Hnh; reflexivity)
                                 |split; [exact Hstop|exact Hiff]]]]]]);
      rewrite Hrt, Ht; subst w1; cbn [w_trace];
      rewrite <- !app_assoc; reflexivity.
  - unfold console_error at 1, emit at 1 in Hrun.
    set (w3 := mkWorld (w_ext w2) (w_promises w2)
                 (w_trace w2 ++ [EError "Error running tasks:" [err]])) in Hrun.
    destruct (release_run mongod w3)
      as [closed [after [Hrt [Hnt [Hnh [Hstop Hiff]]]]]].
    exists tevs, (EError "Error running tasks:" [err]), closed, after.
    unfold bind at 1 in Hrun.
    destruct (release P mongod w3) as [[[]|e|] w4]; cbn in Hrun, Hrt, Hnh; subst run;
      unfold ret; cbn [fst snd]; (split; [|split; [exact HP|split; [right; eexists; reflexivity|
        split; [exact Hnt|split; [try discriminate; try (elim Hnh; reflexivity)
                                 |split; [exact Hstop|exact Hiff]]]]]]);
      rewrite Hrt, Ht; subst w1; cbn [w_trace];
      rewrite <- !app_assoc; reflexivity.
Qed.

Lemma task_step_model (c : call) (o : outcome) :
  task_step (ECall c o) -> model_of (ECall c o) = Some "Person"%string.
Proof.
  exact (fun H => H).
Qed.

(** From the call to [connect] on: a failed connection is logged; after an
    established one the tasks run and the release follows, and a failure of
    the release is logged as well.  Nothing is thrown. *)
Lemma connect_and_run_run (mongoUri mongod : value) (w : world D) :
  fst (connect_and_run P mongoUri mongod w) = Ret VUndefined /\
  ((exists e,
      w_trace (snd (connect_and_run P mongoUri mongod w))
      = w_trace w ++ [ ECall (mongoose_connect mongoUri connect_options) (Rejected e);
                       EError "MongoDB connection error:" [e] ]) \/
   (exists x tevs mark closed after,
      w_trace (snd (connect_and_run P mongoUri mongod w))
      = w_trace w
          ++ ECall (mongoose_connect mongoUri connect_options) (Fulfilled x)
          :: ELog "Successfully connected to MongoDB" [] :: tevs
          ++ mark :: ECall connection_close closed :: after /\
      Forall task_step tevs /\
      (mark = ELog "All tasks completed." [] \/
       exists err, mark = EError "Error running tasks:" [err]) /\
      Forall not_task after /\
      (forall c o, In (ECall c o) after -> c = MongoMemoryServer_stop mongod) /\
      (is_fulfilled closed = true ->
         ((exists o, In (ECall (MongoMemoryServer_stop mongod) o) after)
          <-> truthy mongod = true)))).
Proof.
  remember (connect_and_run P mongoUri mongod w) as run eqn:Hrun.
  unfold connect_and_run in Hrun. unfold bind at 1 in Hrun. rewrite lib_run in Hrun.
  destruct (exec P (mongoose_connect mongoUri connect_options) (w_ext w))
    as [[x|e] d1]; cbn [fst snd] in Hrun.
  - set (w1 := mkWorld d1 (w_promises w)
                 (w_trace w ++ [ECall (mongoose_connect mongoUri connect_options)
                                  (Fulfilled x)])) in Hrun.
    unfold bind at 1, then_ at 1, async in Hrun.
    destruct (connected_run mongod w1)
      as [tevs [mark [closed [after [Ht [HP [Hmark [Hnt [Hnh [Hstop Hiff]]]]]]]]]].
    destruct (connected P mongod w1) as [[v|e|] w2]; cbn [fst snd] in Ht, Hnh;
      [| |elim Hnh; reflexivity]; cbn in Hrun; subst run; unfold ret; cbn [fst snd].
    + split; [reflexivity|]. right. exists x, tevs, mark, closed, after.
      split; [|auto]. rewrite Ht. subst w1. cbn [w_trace].
      rewrite <- app_assoc. reflexivity.
    + split; [reflexivity|]. right.
      exists x, tevs, mark, closed,
        (after ++ [EError "MongoDB connection error:" [e]]).
      split; [|split; [exact HP|split; [exact Hmark|split; [|split]]]].
      * rewrite Ht. subst w1. cbn [w_trace].
        rewrite <- !app_assoc. cbn [app]. rewrite <- !app_assoc. reflexivity.
      * apply Forall_app. split; [exact Hnt|repeat constructor].
      * intros c o Hin. apply in_app_iff in Hin.
        destruct Hin as [Hin|[[=]|[]]]. exact (Hstop c o Hin).
      * intros Hc. rewrite <- (Hiff Hc). split; intros [o Hin]; exists o.
        -- apply in_app_iff in Hin. destruct Hin as [Hin|[[=]|[]]]. exact Hin.
        -- apply in_app_iff. left. exact Hin.
  - cbn in Hrun. subst run. cbn [fst snd]. split; [reflexivity|].
    left. exists e. rewrite <- app_assoc. reflexivity.
Qed.

Lemma task_phase_call (tevs : list event) (c : call) (o : outcome) :
  Forall task_step tevs -> In (ECall c o) tevs ->
  model_of (ECall c o) = Some "Person"%string.
Proof.
  intros HP Hin. rewrite Forall_forall in HP. exact (HP _ Hin).
Qed.

(** What stands in the trace before the release, once the connection is
    established: maybe the start of the server, the connection, the tasks and
    their completion line or error line. *)
Lemma before_release (pre tevs : list event) (mark : event) (x uri : value) :
  Forall task_step tevs ->
  (mark = ELog "All tasks completed." [] \/
   exists err, mark = EError "Error running tasks:" [err]) ->
  (forall c o, In (ECall c o) pre -> c = MongoMemoryServer_create) ->
  let before :=
    pre ++ ECall (mongoose_connect uri connect_options) (Fulfilled x)
        :: ELog "Successfully connected to MongoDB" [] :: tevs ++ [mark] in
  (forall c o, In (ECall c o) before ->
     c <> connection_close /\ forall m, c <> MongoMemoryServer_stop m) /\
  (In (ELog "All tasks completed." []) before \/
   exists err, In (EError "Error running tasks:" [err]) before) /\
  (forall m, In (ECall MongoMemoryServer_create (Fulfilled m)) before ->
             In (ECall MongoMemoryServer_create (Fulfilled m)) pre).
Proof.
  intros HP Hmark Hpre before. subst before. split; [|split].
  - intros c o Hin. apply in_app_iff in Hin.
    destruct Hin as [Hin|[[= <- _]|[[=]|Hin]]].
    + rewrite (Hpre c o Hin). split; [|intros m]; discriminate.
    + split; [|intros m]; discriminate.
    + apply in_app_iff in Hin. destruct Hin as [Hin|[Hin|[]]].
      * pose proof (task_phase_call tevs c o HP Hin) as Hm.
        destruct c; try discriminate Hm; split; try intros m; discriminate.
      * destruct Hmark as [->|[err ->]]; discriminate Hin.
  - destruct Hmark as [->|[err ->]]; [left|right; exists err];
      apply in_app_iff; right; right; right; apply in_app_iff; right; left;
      reflexivity.
  - intros m Hin. apply in_app_iff in Hin.
    destruct Hin as [Hin|[[=]|[[=]|Hin]]]; [exact Hin|].
    apply in_app_iff in Hin. destruct Hin as [Hin|[Hin|[]]].
    + pose proof (task_phase_call tevs _ _ HP Hin) as Hm. discriminate Hm.
    + destruct Hmark as [->|[err ->]]; discriminate Hin.
Qed.

End Release.

(** C9, amended.  On a platform whose server handles are objects, once the
    connection is established [start] releases its resources after the task
    phase and throws nothing, whether the tasks fulfil (their completion line
    is logged) or reject (their error is logged): [connection.close()] is
    called after every task event; nothing is closed or stopped before; and,
    when [close] has fulfilled, the in-memory server is stopped exactly when
    one was started, which is exactly when [MONGO_URI] is falsy: unset or the
    empty string. *)
Theorem start_releases {D} (P : platform D) (MONGO_URI : value) (w : world D) :
  let run := start P MONGO_URI w in
  let evs := since w (snd run) in
  (forall d m d', exec P MongoMemoryServer_create d = (Fulfilled m, d') ->
                  truthy m = true) ->
  forall uri options v,
    In (ECall (mongoose_connect uri options) (Fulfilled v)) evs ->
    exists before closed after,
      evs = before ++ ECall connection_close closed :: after /\
      Forall not_task after /\
      (forall c o, In (ECall c o) before ->
         c <> connection_close /\ forall m, c <> MongoMemoryServer_stop m) /\
      fst run = Ret VUndefined /\
      (In (ELog "All tasks completed." []) before \/
       exists err, In (EError "Error running tasks:" [err]) before) /\
      ((exists m, In (ECall MongoMemoryServer_create (Fulfilled m)) before)
       <-> truthy MONGO_URI = false) /\
      (is_fulfilled closed = true ->
         ((exists m o, In (ECall (MongoMemoryServer_stop m) o) after)
          <-> truthy MONGO_URI = false)).
Proof.
  cbv zeta. intros Hhandle uri options v.
  remember (start P MONGO_URI w) as run eqn:Hrun.
  unfold start in Hrun. unfold bind at 1 in Hrun.
  destruct (truthy MONGO_URI) eqn:Huri; cbn [negb] in Hrun.
  - unfold ret at 1 in Hrun. cbn [fst snd] in Hrun.
    destruct (connect_and_run_run P MONGO_URI VNull w)
      as [Hres [[e Ht]|[x [tevs [mark [closed [after
           [Ht [HP [Hmark [Hnt [Hstop Hiff]]]]]]]]]]]];
      rewrite <- Hrun in Hres, Ht; rewrite (since_app _ _ _ Ht).
    + intros [[=]|[[=]|[]]].
    + intros _.
      destruct (before_release [] tevs mark x MONGO_URI HP Hmark)
        as [Hb1 [Hb2 Hb3]]; [intros c o []|].
      cbn [app] in Hb1, Hb2, Hb3.
      exists (ECall (mongoose_connect MONGO_URI connect_options) (Fulfilled x)
              :: ELog "Successfully connected to MongoDB" [] :: tevs ++ [mark]),
        closed, after.
      split; [|split; [exact Hnt|split; [exact Hb1|
        split; [exact Hres|split; [exact Hb2|split]]]]].
      * cbn [app]. rewrite <- app_assoc. reflexivity.
      * split; [|discriminate]. intros [m Hm]. elim (Hb3 m Hm).
      * intros Hc. split; [|discriminate]. intros [m [o Hin]].
        pose proof (Hstop _ _ Hin) as Heq. injection Heq as ->.
        assert (Hnull : truthy VNull = true)
          by (apply (Hiff Hc); exists o; exact Hin).
        discriminate Hnull.
  - unfold bind at 1, console_log at 1, emit at 1 in Hrun.
    unfold bind at 1 in Hrun. rewrite lib_run in Hrun.
    cbn [w_ext w_promises w_trace] in Hrun.
    destruct (exec P MongoMemoryServer_create (w_ext w)) as [[m|e] d1] eqn:Hcreate;
      cbn [fst snd] in Hrun.
    + unfold bind at 1, await at 1, ret at 1 in Hrun. unfold ret at 1 in Hrun.
      cbn [fst snd] in Hrun.
      pose proof (Hhandle _ _ _ Hcreate) as Hm.
      set (w1 := mkWorld d1 (w_promises w) _) in Hrun.
      destruct (connect_and_run_run P (getUri P m) m w1)
        as [Hres [[e Ht]|[x [tevs [mark [closed [after
             [Ht [HP [Hmark [Hnt [Hstop Hiff]]]]]]]]]]]];
        rewrite <- Hrun in Hres, Ht; subst w1; cbn [w_trace] in Ht;
        rewrite <- !app_assoc in Ht; cbn [app] in Ht;
        rewrite (since_app _ _ _ Ht).
      * intros [[=]|[[=]|[[=]|[[=]|[]]]]].
      * intros _.
        destruct (before_release
                    [ELog "MONGO_URI not set. Starting in-memory MongoDB..." [];
                     ECall MongoMemoryServer_create (Fulfilled m)]
                    tevs mark x (getUri P m) HP Hmark)
          as [Hb1 [Hb2 Hb3]].
        { intros c o [[=]|[[= <- _]|[]]]. reflexivity. }
        cbn [app] in Hb1, Hb2, Hb3.
        exists (ELog "MONGO_URI not set. Starting in-memory MongoDB..." []
                :: ECall MongoMemoryServer_create (Fulfilled m)
                :: ECall (mongoose_connect (getUri P m) connect_options) (Fulfilled x)
                :: ELog "Successfully connected to MongoDB" [] :: tevs ++ [mark]),
          closed, after.
        split; [|split; [exact Hnt|split; [exact Hb1|
          split; [exact Hres|split; [exact Hb2|split]]]]].
        -- cbn [app]. rewrite <- app_assoc. reflexivity.
        -- split; [reflexivity|]. intros _. exists m. right. left. reflexivity.
        -- intros Hc. split; [reflexivity|]. intros _.
           destruct (proj2 (Hiff Hc) Hm) as [o Hin]. exists m, o. exact Hin.
    + cbn in Hrun. subst run. cbn [fst snd].
      erewrite since_app by (cbn [w_trace]; rewrite <- app_assoc; reflexivity).
      intros [[=]|[[=]|[]]].
Qed.

(** [start] with no [MONGO_URI], on the reference platform. *)
Lemma start_releases_witness :
  exists before closed after,
    since (InMemory.fresh_world InMemory.empty)
      (snd (start InMemory.mapper VUndefined (InMemory.fresh_world InMemory.empty)))
    = before ++ ECall connection_close closed :: after /\
    Forall not_task after /\
    is_fulfilled closed = true.
Proof.
  destruct (start_releases InMemory.mapper VUndefined
              (InMemory.fresh_world InMemory.empty))
    with (uri := VStr InMemory.memory_uri) (options := connect_options)
         (v := VObj [("connection", VObj [])])
    as [before [closed [after [Hevs [Hafter [Hbefore _]]]]]].
  - intros d m d' [= <- _]. reflexivity.
  - vm_compute. right. right. left. reflexivity.
  - exists before, closed, after. split; [exact Hevs|]. split; [exact Hafter|].
    destruct closed as [x|e]; [reflexivity|].
    apply (f_equal (existsb (fun ev =>
             match ev with ECall connection_close (Rejected _) => true | _ => false end)))
      in Hevs.
    rewrite existsb_app in Hevs. cbn [existsb] in Hevs.
    rewrite orb_true_r in Hevs. vm_compute in Hevs. discriminate Hevs.
Defined.

(** C9 as stated fails when [MONGO_URI] is set to the empty string: the
    variable is set, and the in-memory server is started and stopped. *)
Lemma empty_uri_starts_server :
  VStr EmptyString <> VUndefined /\
  filter (fun c => match c with
                   | MongoMemoryServer_create | MongoMemoryServer_stop _ => true
                   | _ => false
                   end)
    (calls (w_trace (snd (start InMemory.mapper (VStr EmptyString)
                            (InMemory.fresh_world InMemory.empty)))))
  = [ MongoMemoryServer_create;
      MongoMemoryServer_stop (VObj [("uri", VStr InMemory.memory_uri)]) ].
Proof.
  split; [discriminate|]. vm_compute. reflexivity.
Qed.

(** ** The reference platform: fields of documents *)

Lemma lookup_set_same (k : string) (x : value) (fields : list (string * value)) :
  lookup k fields <> None ->
  lookup k (map (fun kv => if (fst kv =? k)%string then (k, x) else kv) fields)
  = Some x.
Proof.
  induction fields as [|[k' v] rest IH]; simpl; [congruence|].
  destruct (k' =? k)%string eqn:Hk; simpl.
  - rewrite String.eqb_refl. reflexivity.
  - rewrite Hk. exact IH.
Qed.

Lemma lookup_set_other (k k' : string) (x : value) (fields : list (string * value)) :
  k' <> k ->
  lookup k' (map (fun kv => if (fst kv =? k)%string then (k, x) else kv) fields)
  = lookup k' fields.
Proof.
  intros Hne. induction fields as [|[k0 v] rest IH]; simpl; [reflexivity|].
  destruct (k0 =? k)%string eqn:Hk; simpl.
  - apply String.eqb_eq in Hk. subst k0.
    destruct (k =? k')%string eqn:Hk'.
    + apply String.eqb_eq in Hk'. congruence.
    + exact IH.
  - rewrite IH. reflexivity.
Qed.



Lemma field_set_same (k : string) (x doc : value) :
  InMemory.field k doc <> VUndefined ->
  InMemory.field k (set_field k x doc) = x.
Proof.
  destruct doc as [| | | | | | |fields|]; simpl; try congruence.
  intros H. rewrite lookup_set_same; [reflexivity|].
  destruct (lookup k fields); congruence.
Qed.

Lemma field_set_other (k k' : string) (x doc : value) :
  k' <> k -> InMemory.field k' (set_field k x doc) = InMemory.field k' doc.
Proof.
  intros Hne. destruct doc as [| | | | | | |fields|]; simpl; try reflexivity.
  rewrite lookup_set_other by exact Hne. reflexivity.
Qed.



Lemma conforms_object (doc : value) :
  conforms doc = true -> exists fields, doc = VObj fields.
Proof.
  destruct doc; try discriminate. eauto.
Qed.

Lemma conforms_fields (doc : value) :
  conforms doc = true ->
  (exists s, InMemory.field "name" doc = VStr s) /\
  (InMemory.field "age" doc = VUndefined \/ exists n, InMemory.field "age" doc = VNum n) /\
  (exists l, InMemory.field "favoriteFoods" doc = VArr l /\ forallb is_string l = true).
Proof.
  unfold conforms. intros H.
  apply andb_true_iff in H. destruct H as [H Hfoods].
  apply andb_true_iff in H. destruct H as [Hname Hage].
  split; [|split].
  - destruct (InMemory.field "name" doc); try discriminate. eauto.
  - destruct (InMemory.field "age" doc); try discriminate; eauto.
  - destruct (InMemory.field "favoriteFoods" doc); try discriminate. eauto.
Qed.

Lemma has_type_string (v : value) : InMemory.has_type TString v = is_string v.
Proof.
  destruct v; reflexivity.
Qed.

Lemma forallb_has_type_string (l : list value) :
  forallb (InMemory.has_type TString) l = forallb is_string l.
Proof.
  induction l as [|v l IH]; cbn [forallb]; [reflexivity|].
  rewrite IH. destruct v; reflexivity.
Qed.

Lemma conforms_validate (doc : value) :
  conforms doc = true -> InMemory.validate personSchema doc = true.
Proof.
  intros H. destruct (conforms_fields doc H) as [[s Hn] [Ha [l [Hf Hl]]]].
  unfold InMemory.validate, personSchema, InMemory.valid_path. simpl.
  rewrite Hn, Hf. simpl.
  rewrite forallb_has_type_string, Hl.
  destruct Ha as [->|[n ->]]; reflexivity.
Qed.

Lemma conforms_with_hamburger (doc : value) :
  conforms doc = true -> conforms (with_hamburger doc) = true.
Proof.
  intros H. destruct (conforms_fields doc H) as [[s Hn] [Ha [l [Hf Hl]]]].
  unfold with_hamburger. rewrite Hf. unfold conforms.
  rewrite (field_set_other "favoriteFoods" "name") by discriminate.
  rewrite (field_set_other "favoriteFoods" "age") by discriminate.
  rewrite field_set_same by (rewrite Hf; discriminate).
  rewrite Hn. rewrite forallb_app, Hl. simpl.
  destruct Ha as [->|[n ->]]; reflexivity.
Qed.


Lemma push_hamburger (doc : value) :
  conforms doc = true ->
  push_favoriteFoods doc (VStr "hamburger") = Ret (with_hamburger doc).
Proof.
  intros H. destruct (conforms_object doc H) as [fields ->].
  destruct (conforms_fields _ H) as [_ [_ [l [Hf _]]]].
  unfold push_favoriteFoods, with_hamburger. rewrite Hf.
  unfold get_prop. unfold InMemory.field in Hf.
  destruct (lookup "favoriteFoods" fields); [|discriminate]. rewrite Hf. reflexivity.
Qed.

(** ** The reference platform: the collection *)













(** ** The schema invariant along the script *)

Section Invariant.




























End Invariant.



(** ** Find, edit, then save *)


Lemma find_existsb (test : value -> bool) (l : list value) (d : value) :
  find test l = Some d -> existsb test l = true.
Proof.
  intros H. apply find_some in H. apply existsb_exists. exists d. exact H.
Qed.

Lemma has_id_field (i : N) (doc : value) :
  InMemory.has_id i doc = true -> InMemory.field "_id" doc = VId i.
Proof.
  unfold InMemory.has_id. destruct (InMemory.field "_id" doc); try discriminate.
  intros H. apply N.eqb_eq in H. congruence.
Qed.

(** The run of [findEditThenSave] on a stored, conforming person. *)
Lemma findEditThenSave_found (i : N) (w : world InMemory.store) (d : value) :
  find (InMemory.has_id i) (InMemory.collection (w_ext w)) = Some d ->
  conforms d = true ->
  findEditThenSave InMemory.mapper (VId i) probe w
  = (Ret VUndefined,
     mkWorld
       (InMemory.with_collection
          (InMemory.update_first (InMemory.has_id i) (fun _ => with_hamburger d)
             (InMemory.collection (w_ext w))) (w_ext w))
       (w_promises w)
       (w_trace w ++
          [ EEnter FindEditThenSave;
            ECall (Model_findById "Person" (VId i)) (Fulfilled d);
            ECall (Document_save "Person" (with_hamburger d))
              (Fulfilled (with_hamburger d));
            EDone VNull (with_hamburger d) ])).
Proof.
  intros Hfind Hconf.
  assert (Hfindby : InMemory.exec (Model_findById "Person" (VId i)) (w_ext w)
                    = (Fulfilled d, w_ext w)).
  { cbn. unfold InMemory.findById. rewrite Hfind. reflexivity. }
  assert (Hid : InMemory.field "_id" (with_hamburger d) = VId i).
  { destruct (conforms_fields d Hconf) as [_ [_ [l [Hf _]]]].
    unfold with_hamburger. rewrite Hf. rewrite field_set_other by discriminate.
    apply has_id_field. apply find_some in Hfind. tauto. }
  assert (Hsave : InMemory.exec (Document_save "Person" (with_hamburger d)) (w_ext w)
                  = (Fulfilled (with_hamburger d),
                     InMemory.with_collection
                       (InMemory.update_first (InMemory.has_id i)
                          (fun _ => with_hamburger d)
                          (InMemory.collection (w_ext w))) (w_ext w))).
  { cbn [InMemory.exec]. unfold InMemory.save.
    cbn [InMemory.schema_of models find fst snd option_map String.eqb Ascii.eqb Bool.eqb].
    rewrite (conforms_validate _ (conforms_with_hamburger d Hconf)), Hid.
    rewrite (find_existsb _ _ _ Hfind). reflexivity. }
  assert (Htruthy : truthy d = true).
  { destruct (conforms_object d Hconf) as [fields ->]. reflexivity. }
  unfold findEditThenSave, enter. unfold bind at 1, emit at 1.
  unfold bind at 1. rewrite lib_run. cbn [w_ext w_promises w_trace].
  change (exec InMemory.mapper) with InMemory.exec. rewrite Hfindby. cbn [fst snd].
  unfold bind at 1. unfold then_ at 1. rewrite Htruthy. cbn [negb].
  unfold bind at 1, lift at 1. rewrite (push_hamburger d Hconf).
  unfold bind at 1. rewrite lib_run. cbn [w_ext w_promises w_trace].
  change (exec InMemory.mapper) with InMemory.exec. rewrite Hsave. cbn [fst snd].
  unfold ret at 1. cbn [resolution].
  cbv [bind then_ catch_ on_data on_error discard ret probe emit].
  cbn [w_ext w_promises w_trace]. rewrite <- !app_assoc. reflexivity.
Qed.




(** ** The chained query *)

Lemma key_leb_total (a b : value) :
  InMemory.key_leb a b = false -> InMemory.key_leb b a = true.
Proof.
  destruct a, b; simpl; try discriminate; try reflexivity.
  - intros H. apply Z.leb_gt in H. apply Z.leb_le. lia.
  - intros H. destruct (String.leb_total s s0) as [H1|H1]; congruence.
Qed.

Section Sorting.

Context (le : value -> value -> bool).
Context (le_total : forall a b, le a b = false -> le b a = true).

Lemma insert_by_perm (d : value) (l : list value) :
  Permutation (InMemory.insert_by le d l) (d :: l).
Proof.
  induction l as [|x l IH]; simpl; [reflexivity|].
  destruct (le d x); [reflexivity|].
  rewrite IH. apply perm_swap.
Qed.

Lemma sort_by_perm (l : list value) : Permutation (InMemory.sort_by le l) l.
Proof.
  induction l as [|x l IH]; simpl; [reflexivity|].
  rewrite insert_by_perm. constructor. exact IH.
Qed.

Lemma insert_by_hd (d x : value) (l : list value) :
  le x d = true -> HdRel (fun a b => le a b = true) x l ->
  HdRel (fun a b => le a b = true) x (InMemory.insert_by le d l).
Proof.
  intros Hxd Hl. destruct l as [|y l]; simpl; [constructor; exact Hxd|].
  destruct (le d y); constructor; [exact Hxd|].
  inversion Hl; assumption.
Qed.

Lemma insert_by_sorted (d : value) (l : list value) :
  Sorted (fun a b => le a b = true) l ->
  Sorted (fun a b => le a b = true) (InMemory.insert_by le d l).
Proof.
  induction l as [|x l IH]; intros Hl; simpl.
  - repeat constructor.
  - destruct (le d x) eqn:Hdx.
    + constructor; [exact Hl|constructor; exact Hdx].
    + inversion Hl as [|? ? Hs Hh]; subst. constructor; [apply IH, Hs|].
      apply insert_by_hd; [apply le_total, Hdx|exact Hh].
Qed.

Lemma sort_by_sorted (l : list value) :
  Sorted (fun a b => le a b = true) (InMemory.sort_by le l).
Proof.
  induction l as [|x l IH]; simpl; [constructor|].
  apply insert_by_sorted, IH.
Qed.

End Sorting.

Lemma firstn_sorted {A} (R : A -> A -> Prop) (n : nat) (l : list A) :
  Sorted R l -> Sorted R (firstn n l).
Proof.
  revert l. induction n as [|n IH]; intros l Hl; simpl; [constructor|].
  destruct l as [|x l]; [constructor|].
  inversion Hl as [|? ? Hs Hh]; subst. constructor; [apply IH, Hs|].
  destruct l as [|y l]; destruct n; simpl; constructor.
  inversion Hh; assumption.
Qed.

Lemma firstn_incl {A} (n : nat) (l : list A) (x : A) :
  In x (firstn n l) -> In x l.
Proof.
  intros H. rewrite <- (firstn_skipn n l). apply in_app_iff. left. exact H.
Qed.

Lemma lookup_filter_other (k k' : string) (fields : list (string * value)) :
  k' <> k ->
  lookup k' (filter (fun kv => negb (fst kv =? k)%string) fields) = lookup k' fields.
Proof.
  intros Hne. induction fields as [|[k0 v] rest IH]; simpl; [reflexivity|].
  destruct (k0 =? k)%string eqn:Hk; simpl.
  - apply String.eqb_eq in Hk. subst k0.
    destruct (k =? k')%string eqn:Hk'; [|exact IH].
    apply String.eqb_eq in Hk'. congruence.
  - rewrite IH. reflexivity.
Qed.

Lemma lookup_filter_same (k : string) (fields : list (string * value)) :
  lookup k (filter (fun kv => negb (fst kv =? k)%string) fields) = None.
Proof.
  induction fields as [|[k0 v] rest IH]; simpl; [reflexivity|].
  destruct (k0 =? k)%string eqn:Hk; simpl; [exact IH|].
  rewrite Hk. exact IH.
Qed.

Lemma field_remove_other (k k' : string) (doc : value) :
  k' <> k ->
  InMemory.field k' (InMemory.remove_field k doc) = InMemory.field k' doc.
Proof.
  intros Hne. destruct doc; try reflexivity. simpl.
  rewrite lookup_filter_other by exact Hne. reflexivity.
Qed.

Lemma field_remove_same (k : string) (doc : value) :
  InMemory.field k (InMemory.remove_field k doc) = VUndefined.
Proof.
  destruct doc; try reflexivity. simpl. rewrite lookup_filter_same. reflexivity.
Qed.

Lemma map_remove_age_sorted (l : list value) :
  Sorted name_le l -> Sorted name_le (map (InMemory.remove_field "age") l).
Proof.
  assert (Hname : forall a b, name_le a b ->
            name_le (InMemory.remove_field "age" a) (InMemory.remove_field "age" b)).
  { intros a b H. unfold name_le.
    rewrite !(field_remove_other "age" "name") by discriminate. exact H. }
  induction 1 as [|x l Hs IH Hh]; simpl; constructor; [exact IH|].
  destruct Hh; simpl; constructor. apply Hname. assumption.
Qed.

Lemma scalar_eqb_string (s : string) (v : value) :
  InMemory.scalar_eqb (VStr s) v = true <-> v = VStr s.
Proof.
  destruct v; simpl; split; try discriminate; try congruence.
  - intros H. apply String.eqb_eq in H. congruence.
  - intros [= ->]. apply String.eqb_refl.
Qed.

Lemma matches_likes (food : string) (doc : value) :
  InMemory.matches (VObj [("favoriteFoods", VStr food)]) doc = true
  <-> likes food doc.
Proof.
  unfold InMemory.matches, likes. cbn [forallb fst snd].
  rewrite andb_true_r. unfold InMemory.matches_value.
  destruct (InMemory.field "favoriteFoods" doc) as [| | | | | |l| |];
    try apply scalar_eqb_string.
  rewrite existsb_exists. split.
  - intros [x [Hin Hx]]. apply scalar_eqb_string in Hx. subst x. exact Hin.
  - intros Hin. exists (VStr food). split; [exact Hin|].
    apply scalar_eqb_string. reflexivity.
Qed.

(** C2.  [queryChain] builds one query with the helpers in the order find,
    sort, limit, select, executes it and, for a callback that returns
    normally, does nothing else than hand its outcome to the callback.  On
    the reference platform the query yields the first two, in ascending
    order of name, of the stored persons whose favoriteFoods contain
    'burritos', each without its age and otherwise as stored. *)
Theorem queryChain_pipeline {D} (P : platform D) (done : callback D) (w : world D)
  (st : InMemory.store) :
  let matching := filter (InMemory.matches burritos_filter) (InMemory.collection st) in
  let sorted := InMemory.sort_by name_leb matching in
  let result := InMemory.run_query burritos_query st in
  burritos_query
    = select (VStr "-age")
        (limit (VNum 2) (sort (VObj [("name", VNum 1)]) (Model_find burritos_filter))) /\
  (returns_normally done ->
   queryChain P done w
   = delegation P QueryChain (Query_exec "Person" burritos_query) done w) /\
  exec InMemory.mapper (Query_exec "Person" burritos_query) st
    = (Fulfilled (VArr result), st) /\
  result = map (InMemory.remove_field "age") (firstn 2 sorted) /\
  (forall d, In d matching <-> In d (InMemory.collection st) /\ likes "burritos" d) /\
  Permutation sorted matching /\
  Sorted name_le sorted /\
  List.length result <= 2 /\
  Sorted name_le result /\
  Forall (fun r => InMemory.field "age" r = VUndefined) result /\
  (forall r, In r result ->
     exists d, In d (InMemory.collection st) /\ likes "burritos" d /\
               r = InMemory.remove_field "age" d /\
               forall k, k <> "age"%string -> InMemory.field k r = InMemory.field k d).
Proof.
  cbv zeta.
  assert (Hres : InMemory.run_query burritos_query st
                 = map (InMemory.remove_field "age")
                     (firstn 2 (InMemory.sort_by name_leb
                        (filter (InMemory.matches burritos_filter)
                           (InMemory.collection st))))) by reflexivity.
  assert (Hsorted : Sorted name_le
            (InMemory.sort_by name_leb
               (filter (InMemory.matches burritos_filter) (InMemory.collection st)))).
  { apply (sort_by_sorted name_leb). intros a b. apply key_leb_total. }
  assert (Hmatch : forall d,
            In d (filter (InMemory.matches burritos_filter) (InMemory.collection st))
            <-> In d (InMemory.collection st) /\ likes "burritos" d).
  { intros d. rewrite filter_In. unfold burritos_filter.
    rewrite matches_likes. reflexivity. }
  split; [reflexivity|].
  split; [intros Hdone; apply (delegating_delegation P QueryChain); exact Hdone|].
  split; [reflexivity|]. split; [exact Hres|]. split; [exact Hmatch|].
  split; [apply sort_by_perm|]. split; [exact Hsorted|].
  rewrite Hres. split; [|split; [|split]].
  - rewrite length_map, length_firstn. lia.
  - apply map_remove_age_sorted, firstn_sorted, Hsorted.
  - apply Forall_forall. intros r Hin. apply in_map_iff in Hin.
    destruct Hin as [d [<- _]]. apply field_remove_same.
  - intros r Hin. apply in_map_iff in Hin. destruct Hin as [d [<- Hin]].
    exists d. apply firstn_incl in Hin.
    apply (Permutation_in _ (sort_by_perm name_leb _)) in Hin.
    apply Hmatch in Hin. destruct Hin as [Hin Hlikes].
    split; [exact Hin|]. split; [exact Hlikes|]. split; [reflexivity|].
    intros k Hk. apply field_remove_other. exact Hk.
Qed.

(** On the reference platform after the seed data was created, with the
    probe as callback. *)
Lemma queryChain_pipeline_witness :
  reported (w_trace (snd (queryChain InMemory.mapper probe
     (InMemory.fresh_world
        (snd (exec InMemory.mapper (Model_create "Person" peopleData)
                InMemory.empty))))))
  = [ (VNull,
       VArr [ VObj [ ("_id", VId 0); ("name", VStr "John");
                     ("favoriteFoods", VArr [VStr "pizza"; VStr "burritos"]) ];
              VObj [ ("_id", VId 1); ("name", VStr "Mary");
                     ("favoriteFoods", VArr [VStr "salad"; VStr "burritos"]) ] ]) ].
Proof.
  destruct (queryChain_pipeline InMemory.mapper probe
              (InMemory.fresh_world
                 (snd (exec InMemory.mapper (Model_create "Person" peopleData)
                         InMemory.empty)))
              InMemory.empty) as [_ [H _]].
  rewrite (H probe_returns). vm_compute. reflexivity.
Defined.

(** * Further properties of the script *)

(** ** [cbToPromise] *)

(** X1.  The promise of [cbToPromise] keeps its first settlement: when the
    wrapped function invokes the callback, invokes it again and then throws,
    the promise is settled by the first invocation alone (rejected with the
    error when it is truthy, fulfilled with the data otherwise), and
    [cbToPromise] itself returns normally. *)
Theorem cbToPromise_first_settlement_wins {D}
  (err1 data1 err2 data2 x : value) (w : world D) :
  let h := List.length (w_promises w) in
  let run := cbToPromise (fun done : callback D =>
                            done err1 data1 ;; done err2 data2 ;; throw x) w in
  fst run = Ret h /\
  promise_state h (snd run)
    = Some (if truthy err1 then Rejected err1 else Fulfilled data1) /\
  w_ext (snd run) = w_ext w /\
  w_trace (snd run) = w_trace w.
Proof.
  cbv zeta.
  assert (Hrun : cbToPromise (fun done : callback D =>
                                done err1 data1 ;; done err2 data2 ;; throw x) w
                 = (Ret (List.length (w_promises w)),
                    mkWorld (w_ext w)
                      (w_promises w ++
                         [Some (if truthy err1 then Rejected err1 else Fulfilled data1)])
                      (w_trace w))).
  { unfold cbToPromise. cbv zeta.
    unfold bind at 1. rewrite promise_callback_pending.
    unfold bind at 1. rewrite promise_callback_settled.
    unfold throw. unfold bind at 1. rewrite settle_settled. reflexivity. }
  rewrite Hrun. cbn [fst snd w_ext w_trace]. rewrite promise_state_fresh. auto.
Qed.



(** ** How the operations report *)

Lemma delegating_probe_run {D} (P : platform D) (op : operation) (c : call)
  (w : world D) :
  delegating P op c probe w
  = (Ret VUndefined,
     mkWorld (snd (exec P c (w_ext w))) (w_promises w)
       (w_trace w ++
          [ EEnter op; ECall c (fst (exec P c (w_ext w)));
            EDone (fst (report_of (fst (exec P c (w_ext w)))))
                  (snd (report_of (fst (exec P c (w_ext w))))) ])).
Proof.
  rewrite (delegating_delegation P op c probe w probe_returns).
  unfold delegation, adapted, enter. unfold bind at 1, emit at 1.
  unfold bind at 1. rewrite lib_run. cbn [w_ext w_promises w_trace fst snd].
  destruct (fst (exec P c (w_ext w))); cbv [bind probe emit ret report_of fst snd];
    cbn [w_ext w_promises w_trace]; rewrite <- !app_assoc; reflexivity.
Qed.

(** X3.  On every platform, each of the eight operation functions that make
    one library call, given a callback that only records, makes exactly that
    call, changes the external state only through it, returns normally and
    invokes the callback exactly once: with the error alone when the promise
    rejected, with [null] and the result when it fulfilled. *)
Theorem single_call_reports_once {D} (P : platform D)
  (arrayOfPeople personName food personId : value) :
  Forall (fun fc : (callback D -> M D value) * call =>
            forall w,
              fst (fst fc probe w) = Ret VUndefined /\
              calls (since w (snd (fst fc probe w))) = [snd fc] /\
              reported (since w (snd (fst fc probe w)))
                = [report_of (fst (exec P (snd fc) (w_ext w)))] /\
              w_ext (snd (fst fc probe w)) = snd (exec P (snd fc) (w_ext w)))
    (single_call_operations P arrayOfPeople personName food personId).
Proof.
  assert (H : forall op c (w : world D),
             fst (delegating P op c probe w) = Ret VUndefined /\
             calls (since w (snd (delegating P op c probe w))) = [c] /\
             reported (since w (snd (delegating P op c probe w)))
               = [report_of (fst (exec P c (w_ext w)))] /\
             w_ext (snd (delegating P op c probe w)) = snd (exec P c (w_ext w))).
  { intros op c w. rewrite delegating_probe_run. cbn [fst snd w_ext].
    erewrite since_app by reflexivity. cbn [calls reported].
    destruct (report_of (fst (exec P c (w_ext w)))); auto. }
  unfold single_call_operations.
  repeat (constructor; [intros w; cbn [fst snd];
    first [ exact (H CreateManyPeople _ w) | exact (H FindPeopleByName _ w)
          | exact (H FindOneByFood _ w) | exact (H FindPersonById _ w)
          | exact (H FindAndUpdate _ w) | exact (H RemoveById _ w)
          | exact (H RemoveManyPeople _ w) | exact (H QueryChain _ w) ]|]).
  constructor.
Qed.

Lemma delegating_throwing_run {D} (P : platform D) (op : operation) (c : call)
  (x : value) (w : world D) :
  delegating P op c (throwing_probe x) w
  = (Ret VUndefined,
     mkWorld (snd (exec P c (w_ext w))) (w_promises w)
       (w_trace w ++
          EEnter op :: ECall c (fst (exec P c (w_ext w))) ::
          match fst (exec P c (w_ext w)) with
          | Fulfilled v => [EDone VNull v; EDone x VUndefined; EUnhandled x]
          | Rejected e => [EDone e VUndefined; EUnhandled x]
          end)).
Proof.
  unfold delegating, nodeify, enter. unfold bind at 1, emit at 1.
  unfold bind at 1. rewrite lib_run. cbn [w_ext w_promises w_trace fst snd].
  destruct (fst (exec P c (w_ext w)));
    cbv [bind then_ catch_ on_data on_error discard throwing_probe emit ret throw];
    cbn [w_ext w_promises w_trace]; rewrite <- !app_assoc; reflexivity.
Qed.

(** X4.  A callback that throws is invoked a second time.  On every platform,
    for each single-call operation and a callback that records and then
    throws [x]: when the library promise fulfils, the callback is invoked
    with [null] and the result and then again with its own exception [x] as
    the error; when the promise rejects it is invoked once; in both cases the
    last exception is left as an unhandled rejection and the operation itself
    returns normally. *)
Theorem throwing_callback_invoked_again {D} (P : platform D)
  (arrayOfPeople personName food personId x : value) :
  Forall (fun fc : (callback D -> M D value) * call =>
            forall w,
              let run := fst fc (throwing_probe x) w in
              fst run = Ret VUndefined /\
              reported (since w (snd run))
                = match fst (exec P (snd fc) (w_ext w)) with
                  | Fulfilled v => [(VNull, v); (x, VUndefined)]
                  | Rejected e => [(e, VUndefined)]
                  end /\
              In (EUnhandled x) (since w (snd run)))
    (single_call_operations P arrayOfPeople personName food personId).
Proof.
  assert (H : forall op c (w : world D),
             let run := delegating P op c (throwing_probe x) w in
             fst run = Ret VUndefined /\
             reported (since w (snd run))
               = match fst (exec P c (w_ext w)) with
                 | Fulfilled v => [(VNull, v); (x, VUndefined)]
                 | Rejected e => [(e, VUndefined)]
                 end /\
             In (EUnhandled x) (since w (snd run))).
  { intros op c w. cbv zeta. rewrite delegating_throwing_run. cbn [fst snd].
    erewrite since_app by reflexivity.
    destruct (fst (exec P c (w_ext w))); cbn; auto 10. }
  unfold single_call_operations.
  repeat (constructor; [intros w; cbn [fst snd];
    first [ exact (H CreateManyPeople _ w) | exact (H FindPeopleByName _ w)
          | exact (H FindOneByFood _ w) | exact (H FindPersonById _ w)
          | exact (H FindAndUpdate _ w) | exact (H RemoveById _ w)
          | exact (H RemoveManyPeople _ w) | exact (H QueryChain _ w) ]|]).
  constructor.
Qed.

(** ** Failures in the task phase *)

Lemma cbToPromise_createAndSavePerson {D} (P : platform D) (w : world D) :
  cbToPromise (createAndSavePerson P) w
  = (Ret (List.length (w_promises w)),
     mkWorld
       (snd (exec P (Document_save "Person" (fst (construct P "Person" charlie (w_ext w))))
               (snd (construct P "Person" charlie (w_ext w)))))
       (w_promises w ++
          [Some (roundtrip
                   (fst (exec P (Document_save "Person"
                                   (fst (construct P "Person" charlie (w_ext w))))
                           (snd (construct P "Person" charlie (w_ext w))))))])
       (w_trace w ++
          [ EEnter CreateAndSavePerson; ENew "Person" charlie;
            ECall (Document_save "Person" (fst (construct P "Person" charlie (w_ext w))))
              (fst (exec P (Document_save "Person"
                              (fst (construct P "Person" charlie (w_ext w))))
                      (snd (construct P "Person" charlie (w_ext w))))) ])).
Proof.
  unfold cbToPromise, createAndSavePerson, enter, emit. cbv zeta.
  unfold bind at 1. unfold bind at 1, new_ at 1. cbn [w_ext w_promises w_trace].
  change (VObj [("name", VStr "Charlie"); ("age", VNum 40);
                ("favoriteFoods", VArr [VStr "sandwich"])]) with charlie.
  destruct (construct P "Person" charlie (w_ext w)) as [person d1]. cbn [fst snd].
  unfold bind at 1. rewrite lib_run. cbn [w_ext w_promises w_trace fst snd].
  rewrite reactions_pending. rewrite <- !app_assoc. reflexivity.
Qed.

(** X5.  [runAllTasks] stops at the first failure: on every platform, when
    the [save] of the first operation rejects with a truthy error,
    [runAllTasks] rejects with exactly that error, has made no other library
    call and has entered no other operation. *)
Theorem runAllTasks_fails_fast {D} (P : platform D) (e : value) (w : world D) :
  let built := construct P "Person" charlie (w_ext w) in
  fst (exec P (Document_save "Person" (fst built)) (snd built)) = Rejected e ->
  truthy e = true ->
  fst (runAllTasks P w) = Throw e /\
  entered (since w (snd (runAllTasks P w))) = [CreateAndSavePerson] /\
  calls (since w (snd (runAllTasks P w))) = [Document_save "Person" (fst built)].
Proof.
  cbv zeta. intros Hsave Htruthy.
  remember (runAllTasks P w) as run eqn:Hrun.
  unfold runAllTasks in Hrun. unfold bind at 1, console_log at 1, emit at 1 in Hrun.
  unfold bind at 1 in Hrun. rewrite cbToPromise_createAndSavePerson in Hrun.
  cbn [w_ext w_promises w_trace] in Hrun. rewrite Hsave in Hrun.
  cbn [roundtrip] in Hrun. rewrite Htruthy in Hrun.
  unfold bind at 1 in Hrun. rewrite await_settled in Hrun.
  subst run. cbn [fst snd].
  erewrite since_app by (cbn [w_trace]; rewrite <- app_assoc; reflexivity).
  auto.
Qed.

(** Every promise of the library rejects with the same error. *)
Lemma runAllTasks_fails_fast_witness :
  fst (runAllTasks (rejecting (VError "MongoError" "down")) (mkWorld tt [] []))
  = Throw (VError "MongoError" "down").
Proof.
  destruct (runAllTasks_fails_fast (rejecting (VError "MongoError" "down"))
              (VError "MongoError" "down") (mkWorld tt [] []) eq_refl eq_refl)
    as [H _].
  exact H.
Defined.

(** X6.  The arguments of the operations are read inside the function that
    [cbToPromise] wraps, so a failure to read them rejects the promise
    instead of throwing: when the saved person is [null] or [undefined]
    (lines 179 and 183), or the array of created people is empty (line 191),
    the promise rejects with a TypeError, no operation is entered and no
    library call is made. *)
Theorem unreadable_argument_rejects {D} (P : platform D) (w : world D)
  (savedPerson : value) :
  let h := List.length (w_promises w) in
  let settled e := (Ret h, mkWorld (w_ext w) (w_promises w ++ [Some (Rejected e)])
                             (w_trace w)) in
  (savedPerson = VNull \/ savedPerson = VUndefined ->
   exists msg,
     cbToPromise (fun done =>
         id <- lift (get_prop savedPerson "_id") ;; findPersonById P id done) w
     = settled (TypeError msg) /\
     cbToPromise (fun done =>
         id <- lift (get_prop savedPerson "_id") ;; findEditThenSave P id done) w
     = settled (TypeError msg)) /\
  cbToPromise (fun done =>
      first <- lift (get_index0 (VArr [])) ;;
      id <- lift (get_prop first "_id") ;; removeById P id done) w
  = settled (TypeError "Cannot read properties of undefined (reading '_id')").
Proof.
  cbv zeta. split.
  - intros [->| ->]; eexists; split;
      unfold cbToPromise, bind, lift, get_prop; cbv zeta;
      rewrite settle_pending; reflexivity.
  - unfold cbToPromise, bind, lift, get_index0, get_prop; cbv zeta.
    cbn [hd]. rewrite settle_pending. reflexivity.
Qed.

Lemma unreadable_argument_rejects_witness :
  exists msg,
    promise_state 0
      (snd (cbToPromise (fun done =>
               id <- lift (get_prop VNull "_id") ;;
               findPersonById InMemory.mapper id done)
              (InMemory.fresh_world InMemory.empty)))
    = Some (Rejected (TypeError msg)).
Proof.
  destruct (unreadable_argument_rejects InMemory.mapper
              (InMemory.fresh_world InMemory.empty) VNull) as [H _].
  destruct (H (or_introl eq_refl)) as [msg [Hrun _]].
  exists msg. rewrite Hrun. reflexivity.
Defined.

(** ** Failures around the connection *)

Section Failures.

Context {D : Type} (P : platform D).

(** The four ways the [finally] block can go. *)
Lemma release_cases (mongod : value) (w : world D) :
  (exists e d,
     release P mongod w
     = (Throw e, mkWorld d (w_promises w)
                   (w_trace w ++ [ECall connection_close (Rejected e)]))) \/
  (exists x d,
     truthy mongod = false /\
     release P mongod w
     = (Ret tt, mkWorld d (w_promises w)
                  (w_trace w ++ [ ECall connection_close (Fulfilled x);
                                  ELog "Connection closed." [] ]))) \/
  (exists x y d,
     truthy mongod = true /\
     release P mongod w
     = (Ret tt, mkWorld d (w_promises w)
                  (w_trace w ++ [ ECall connection_close (Fulfilled x);
                                  ECall (MongoMemoryServer_stop mongod) (Fulfilled y);
                                  ELog "Connection closed." [] ]))) \/
  (exists x e d,
     truthy mongod = true /\
     release P mongod w
     = (Throw e, mkWorld d (w_promises w)
                   (w_trace w ++ [ ECall connection_close (Fulfilled x);
                                   ECall (MongoMemoryServer_stop mongod) (Rejected e) ]))).
Proof.
  remember (release P mongod w) as run eqn:Hrun.
  unfold release in Hrun. unfold bind at 1 in Hrun. rewrite lib_run in Hrun.
  destruct (exec P connection_close (w_ext w)) as [[x|e] d1]; cbn [fst snd] in Hrun.
  - unfold bind at 1, await at 1, ret at 1 in Hrun.
    destruct (truthy mongod) eqn:Hm.
    + unfold bind at 1 in Hrun. unfold bind at 1 in Hrun. rewrite lib_run in Hrun.
      cbn [w_ext w_promises w_trace] in Hrun.
      destruct (exec P (MongoMemoryServer_stop mongod) d1) as [[y|e] d2];
        cbn in Hrun; rewrite <- ?app_assoc in Hrun; cbn [app] in Hrun.
      * right. right. left. exists x, y, d2. split; [reflexivity|].
        rewrite Hrun. unfold console_log, emit. cbn. rewrite <- ?app_assoc. reflexivity.
      * right. right. right. exists x, e, d2. split; [reflexivity|].
        rewrite Hrun. unfold console_log, emit. cbn. rewrite <- ?app_assoc. reflexivity.
    + cbn in Hrun. rewrite <- ?app_assoc in Hrun. cbn [app] in Hrun.
      right. left. exists x, d1. split; [reflexivity|].
      rewrite Hrun. unfold console_log, emit. cbn. rewrite <- ?app_assoc. reflexivity.
  - cbn in Hrun. left. exists e, d1. exact Hrun.
Qed.

(** The reaction to an established connection is the task phase, the line
    that reports how it ended, and the release. *)
Lemma connected_trace (mongod : value) (w : world D) :
  exists tevs mark w3,
    Forall task_step tevs /\
    (mark = ELog "All tasks completed." [] \/
     exists err, mark = EError "Error running tasks:" [err]) /\
    w_trace w3
      = w_trace w ++ ELog "Successfully connected to MongoDB" [] :: tevs ++ [mark] /\
    connected P mongod w
    = match release P mongod w3 with
      | (Ret _, w4) => (Ret VUndefined, w4)
      | (Throw e, w4) => (Throw e, w4)
      | (Hang, w4) => (Hang, w4)
      end.
Proof.
  remember (connected P mongod w) as run eqn:Hrun.
  unfold connected in Hrun. unfold bind at 1 in Hrun.
  unfold console_log at 1, emit at 1 in Hrun.
  set (w1 := mkWorld (w_ext w) (w_promises w)
               (w_trace w ++ [ELog "Successfully connected to MongoDB" []])) in Hrun.
  unfold bind at 1, try_finally, try_catch in Hrun. unfold bind at 1 in Hrun.
  destruct (runAllTasks_run P w1) as [tevs [_ [Ht [HP Hs]]]].
  destruct (runAllTasks P w1) as [[v|err|] w2]; cbn [fst snd] in Ht, Hs;
    [| |contradiction].
  - unfold console_log at 1, emit at 1 in Hrun.
    set (w3 := mkWorld (w_ext w2) (w_promises w2)
                 (w_trace w2 ++ [ELog "All tasks completed." []])) in Hrun.
    exists tevs, (ELog "All tasks completed." []), w3.
    split; [exact HP|]. split; [left; reflexivity|]. split.
    + subst w3. cbn [w_trace]. rewrite Ht. subst w1. cbn [w_trace].
      rewrite <- !app_assoc. reflexivity.
    + rewrite Hrun. unfold bind at 1.
      destruct (release P mongod w3) as [[[]|e|] w4]; reflexivity.
  - unfold console_error at 1, emit at 1 in Hrun.
    set (w3 := mkWorld (w_ext w2) (w_promises w2)
                 (w_trace w2 ++ [EError "Error running tasks:" [err]])) in Hrun.
    exists tevs, (EError "Error running tasks:" [err]), w3.
    split; [exact HP|]. split; [right; eexists; reflexivity|]. split.
    + subst w3. cbn [w_trace]. rewrite Ht. subst w1. cbn [w_trace].
      rewrite <- !app_assoc. reflexivity.
    + rewrite Hrun. unfold bind at 1.
      destruct (release P mongod w3) as [[[]|e|] w4]; reflexivity.
Qed.

(** After the call to [connect]: a rejection is logged; an exception of the
    reaction is logged under the same label. *)
Lemma connect_and_run_trace (mongoUri mongod : value) (w : world D) :
  connect_and_run P mongoUri mongod w
  = match fst (exec P (mongoose_connect mongoUri connect_options) (w_ext w)) with
    | Rejected e =>
        (Ret VUndefined,
         mkWorld (snd (exec P (mongoose_connect mongoUri connect_options) (w_ext w)))
           (w_promises w)
           (w_trace w ++
              [ ECall (mongoose_connect mongoUri connect_options) (Rejected e);
                EError "MongoDB connection error:" [e] ]))
    | Fulfilled x =>
        match connected P mongod
                (mkWorld (snd (exec P (mongoose_connect mongoUri connect_options)
                                 (w_ext w)))
                   (w_promises w)
                   (w_trace w ++
                      [ECall (mongoose_connect mongoUri connect_options) (Fulfilled x)]))
        with
        | (Ret _, w2) => (Ret VUndefined, w2)
        | (Throw e, w2) =>
            (Ret VUndefined,
             mkWorld (w_ext w2) (w_promises w2)
               (w_trace w2 ++ [EError "MongoDB connection error:" [e]]))
        | (Hang, w2) => (Hang, w2)
        end
    end.
Proof.
  unfold connect_and_run. unfold bind at 1. rewrite lib_run.
  destruct (exec P (mongoose_connect mongoUri connect_options) (w_ext w))
    as [[x|e] d1]; cbn [fst snd].
  - unfold bind at 1, then_ at 1, async.
    destruct (connected P mongod _) as [[v|e|] w2]; reflexivity.
  - cbn. rewrite <- app_assoc. reflexivity.
Qed.

(** The library calls from [connect] on: the connection, calls on the Person
    model, [close], and [stop] on the handle, which only follows a fulfilled
    [close]; a rejected [close] is logged and nothing is stopped. *)
Lemma connect_and_run_calls (mongoUri mongod : value) (w : world D) :
  exists evs,
    w_trace (snd (connect_and_run P mongoUri mongod w)) = w_trace w ++ evs /\
    fst (connect_and_run P mongoUri mongod w) = Ret VUndefined /\
    (forall c o, In (ECall c o) evs ->
       c = mongoose_connect mongoUri connect_options \/
       model_of (ECall c o) = Some "Person"%string \/
       c = connection_close \/
       (c = MongoMemoryServer_stop mongod /\ truthy mongod = true /\
        exists x, In (ECall connection_close (Fulfilled x)) evs)) /\
    (forall e, In (ECall connection_close (Rejected e)) evs ->
       In (EError "MongoDB connection error:" [e]) evs /\
       forall m o, ~ In (ECall (MongoMemoryServer_stop m) o) evs).
Proof.
  rewrite connect_and_run_trace.
  destruct (exec P (mongoose_connect mongoUri connect_options) (w_ext w))
    as [[x|e] d1]; cbn [fst snd].
  - set (w1 := mkWorld d1 (w_promises w) _).
    destruct (connected_trace mongod w1)
      as [tevs [mark [w3 [HP [Hmark [Ht3 Hconn]]]]]].
    rewrite Hconn. subst w1. cbn [w_trace] in Ht3.
    rewrite <- app_assoc in Ht3. cbn [app] in Ht3.
    assert (Hmid : forall c o post,
              In (ECall c o)
                 (ECall (mongoose_connect mongoUri connect_options) (Fulfilled x)
                  :: ELog "Successfully connected to MongoDB" [] :: tevs ++ [mark]
                  ++ post) ->
              c = mongoose_connect mongoUri connect_options \/
              model_of (ECall c o) = Some "Person"%string \/
              In (ECall c o) post).
    { intros c o post [[= <- _]|[[=]|Hin]]; [left; reflexivity|].
      apply in_app_iff in Hin. destruct Hin as [Hin|Hin].
      - right. left. exact (task_phase_call tevs c o HP Hin).
      - destruct Hin as [Hin|Hin]; [|right; right; exact Hin].
        destruct Hmark as [->|[err ->]]; discriminate Hin. }
    destruct (release_cases mongod w3)
      as [[e [d Hrel]]|[[y [d [Hm Hrel]]]|[[y [z [d [Hm Hrel]]]]|[y [e [d [Hm Hrel]]]]]]];
      rewrite Hrel; cbn [fst snd w_trace w_ext w_promises]; rewrite Ht3;
      rewrite <- !app_assoc; cbn [app]; rewrite <- ?app_assoc; cbn [app];
      eexists; (split; [reflexivity|]);
      (split; [reflexivity|]); split.
    + intros c o Hin. apply Hmid in Hin.
      destruct Hin as [Hin|[Hin|Hin]]; [auto|auto|].
      destruct Hin as [[= <- _]|[[=]|[]]]. auto.
    + intros e' Hin. apply Hmid in Hin.
      destruct Hin as [[=]|[[=]|Hin]].
      destruct Hin as [[= <-]|[[=]|[]]]. split.
      * apply in_cons, in_cons, in_or_app. right. right. right. left. reflexivity.
      * intros m o Hin. apply Hmid in Hin.
        destruct Hin as [[=]|[[=]|Hin]]. destruct Hin as [[=]|[[=]|[]]].
    + intros c o Hin. apply Hmid in Hin.
      destruct Hin as [Hin|[Hin|Hin]]; [auto|auto|].
      destruct Hin as [[= <- _]|[[=]|[]]]. auto.
    + intros e' Hin. apply Hmid in Hin.
      destruct Hin as [[=]|[[=]|Hin]]. destruct Hin as [[=]|[[=]|[]]].
    + intros c o Hin. apply Hmid in Hin.
      destruct Hin as [Hin|[Hin|Hin]]; [auto|auto|].
      destruct Hin as [[= <- _]|[[= <- _]|[[=]|[]]]]; [auto|].
      right. right. right. split; [reflexivity|]. split; [exact Hm|].
      exists y. apply in_cons, in_cons, in_or_app. right. right. left. reflexivity.
    + intros e' Hin. apply Hmid in Hin.
      destruct Hin as [[=]|[[=]|Hin]]. destruct Hin as [[=]|[[=]|[[=]|[]]]].
    + intros c o Hin. apply Hmid in Hin.
      destruct Hin as [Hin|[Hin|Hin]]; [auto|auto|].
      destruct Hin as [[= <- _]|[[= <- _]|[[=]|[]]]]; [auto|].
      right. right. right. split; [reflexivity|]. split; [exact Hm|].
      exists y. apply in_cons, in_cons, in_or_app. right. right. left. reflexivity.
    + intros e' Hin. apply Hmid in Hin.
      destruct Hin as [[=]|[[=]|Hin]]. destruct Hin as [[=]|[[=]|[[=]|[]]]].
  - eexists. split; [reflexivity|]. split; [reflexivity|]. split.
    + intros c o [[= <- _]|[[=]|[]]]. auto.
    + intros e' [[=]|[[=]|[]]].
Qed.

End Failures.

Section StartFailures.

Context {D : Type} (P : platform D).

(** The library calls of [start], classified. *)
Lemma start_calls (MONGO_URI : value) (w : world D) :
  exists evs,
    w_trace (snd (start P MONGO_URI w)) = w_trace w ++ evs /\
    (forall c o, In (ECall c o) evs ->
       (c = MongoMemoryServer_create /\ truthy MONGO_URI = false) \/
       (truthy MONGO_URI = true /\ c = mongoose_connect MONGO_URI connect_options) \/
       (truthy MONGO_URI = false /\
        exists m, In (ECall MongoMemoryServer_create (Fulfilled m)) evs /\
                  c = mongoose_connect (getUri P m) connect_options) \/
       model_of (ECall c o) = Some "Person"%string \/
       c = connection_close \/
       (truthy MONGO_URI = false /\
        exists m x, In (ECall MongoMemoryServer_create (Fulfilled m)) evs /\
                    In (ECall connection_close (Fulfilled x)) evs /\
                    c = MongoMemoryServer_stop m)) /\
    (forall e, In (ECall connection_close (Rejected e)) evs ->
       In (EError "MongoDB connection error:" [e]) evs /\
       forall m o, ~ In (ECall (MongoMemoryServer_stop m) o) evs).
Proof.
  unfold start. unfold bind at 1.
  destruct (truthy MONGO_URI) eqn:Huri; cbn [negb].
  - unfold ret at 1. cbn [fst snd].
    destruct (connect_and_run_calls P MONGO_URI VNull w)
      as [evs [Ht [_ [Hcalls Hclose]]]].
    exists evs. split; [exact Ht|]. split; [|exact Hclose].
    intros c o Hin.
    destruct (Hcalls c o Hin) as [->|[Hm|[->|[_ [Hnull _]]]]]; auto 6.
    discriminate Hnull.
  - unfold bind at 1, console_log at 1, emit at 1.
    unfold bind at 1. rewrite lib_run. cbn [w_ext w_promises w_trace].
    destruct (exec P MongoMemoryServer_create (w_ext w)) as [[m|e] d1];
      cbn [fst snd].
    + unfold bind at 1, await at 1, ret at 1. unfold ret at 1. cbn [fst snd].
      set (w1 := mkWorld d1 (w_promises w) _).
      destruct (connect_and_run_calls P (getUri P m) m w1)
        as [evs [Ht [_ [Hcalls Hclose]]]].
      exists (ELog "MONGO_URI not set. Starting in-memory MongoDB..." []
              :: ECall MongoMemoryServer_create (Fulfilled m) :: evs).
      split; [|split].
      * rewrite Ht. subst w1. cbn [w_trace]. rewrite <- !app_assoc. reflexivity.
      * intros c o [[=]|[[= <- _]|Hin]]; [auto|].
        destruct (Hcalls c o Hin) as [->|[Hm|[->|[-> [_ [x Hx]]]]]]; auto 6.
        -- right. right. left. split; [reflexivity|]. exists m.
           split; [right; left; reflexivity|reflexivity].
        -- right. right. right. right. right. split; [reflexivity|].
           exists m, x. split; [right; left; reflexivity|].
           split; [right; right; exact Hx|reflexivity].
      * intros e [[=]|[[=]|Hin]]. destruct (Hclose e Hin) as [Herr Hnostop].
        split; [right; right; exact Herr|].
        intros m' o [[=]|[[=]|Hin']]. exact (Hnostop m' o Hin').
    + cbn. eexists. split; [rewrite <- app_assoc; reflexivity|]. split.
      * intros c o [[=]|[[= <- _]|[]]]. auto.
      * intros e' [[=]|[[=]|[]]].
Qed.

End StartFailures.

(** X7.  When the connection fails, [start] logs the error under 'MongoDB
    connection error:' and throws nothing, runs no task and releases nothing:
    an in-memory server that was started for the run is left running. *)
Theorem start_connection_failure {D} (P : platform D) (MONGO_URI e : value)
  (w : world D) :
  (truthy MONGO_URI = true ->
   fst (exec P (mongoose_connect MONGO_URI connect_options) (w_ext w)) = Rejected e ->
   start P MONGO_URI w
   = (Ret VUndefined,
      mkWorld (snd (exec P (mongoose_connect MONGO_URI connect_options) (w_ext w)))
        (w_promises w)
        (w_trace w ++
           [ ECall (mongoose_connect MONGO_URI connect_options) (Rejected e);
             EError "MongoDB connection error:" [e] ]))) /\
  (truthy MONGO_URI = false ->
   forall m d1,
     exec P MongoMemoryServer_create (w_ext w) = (Fulfilled m, d1) ->
     fst (exec P (mongoose_connect (getUri P m) connect_options) d1) = Rejected e ->
     start P MONGO_URI w
     = (Ret VUndefined,
        mkWorld (snd (exec P (mongoose_connect (getUri P m) connect_options) d1))
          (w_promises w)
          (w_trace w ++
             [ ELog "MONGO_URI not set. Starting in-memory MongoDB..." [];
               ECall MongoMemoryServer_create (Fulfilled m);
               ECall (mongoose_connect (getUri P m) connect_options) (Rejected e);
               EError "MongoDB connection error:" [e] ]))).
Proof.
  split.
  - intros Huri Hconn. unfold start. unfold bind at 1. rewrite Huri. cbn [negb].
    unfold ret at 1. cbn [fst snd]. rewrite connect_and_run_trace, Hconn.
    reflexivity.
  - intros Huri m d1 Hcreate Hconn. unfold start. unfold bind at 1.
    rewrite Huri. cbn [negb].
    unfold bind at 1, console_log at 1, emit at 1.
    unfold bind at 1. rewrite lib_run. cbn [w_ext w_promises w_trace].
    rewrite Hcreate. cbn [fst snd].
    unfold bind at 1, await at 1, ret at 1. unfold ret at 1. cbn [fst snd].
    rewrite connect_and_run_trace. cbn [w_ext w_promises w_trace].
    rewrite Hconn. rewrite <- !app_assoc. reflexivity.
Qed.

Lemma start_connection_failure_witness :
  fst (start (unreachable (VStr "refused")) (VStr "mongodb://db") (mkWorld tt [] []))
  = Ret VUndefined /\
  calls (w_trace (snd (start (unreachable (VStr "refused")) VUndefined
                         (mkWorld tt [] []))))
  = [ MongoMemoryServer_create;
      mongoose_connect (VStr "mongodb://memory") connect_options ].
Proof.
  destruct (start_connection_failure (unreachable (VStr "refused"))
              (VStr "mongodb://db") (VStr "refused") (mkWorld tt [] []))
    as [H _].
  destruct (start_connection_failure (unreachable (VStr "refused"))
              VUndefined (VStr "refused") (mkWorld tt [] []))
    as [_ H'].
  split.
  - rewrite H; reflexivity.
  - rewrite (H' eq_refl (VObj [("uri", VStr "mongodb://memory")]) tt eq_refl eq_refl).
    reflexivity.
Defined.

(** X8.  When the in-memory server cannot be created, [start] rejects with
    that error before it connects: nothing else is called and nothing is
    logged but the first line. *)
Theorem start_server_failure {D} (P : platform D) (MONGO_URI e : value)
  (w : world D) :
  truthy MONGO_URI = false ->
  fst (exec P MongoMemoryServer_create (w_ext w)) = Rejected e ->
  start P MONGO_URI w
  = (Throw e,
     mkWorld (snd (exec P MongoMemoryServer_create (w_ext w))) (w_promises w)
       (w_trace w ++
          [ ELog "MONGO_URI not set. Starting in-memory MongoDB..." [];
            ECall MongoMemoryServer_create (Rejected e) ])).
Proof.
  intros Huri Hcreate. unfold start. unfold bind at 1. rewrite Huri. cbn [negb].
  unfold bind at 1, console_log at 1, emit at 1.
  unfold bind at 1. rewrite lib_run. cbn [w_ext w_promises w_trace].
  rewrite Hcreate. cbn. rewrite <- !app_assoc. reflexivity.
Qed.

Lemma start_server_failure_witness :
  fst (start (rejecting (VStr "no port")) VUndefined (mkWorld tt [] []))
  = Throw (VStr "no port").
Proof.
  rewrite (start_server_failure (rejecting (VStr "no port")) VUndefined
             (VStr "no port") (mkWorld tt [] []) eq_refl eq_refl).
  reflexivity.
Defined.

(** X9.  When [connection.close()] rejects, [start] logs that error under
    'MongoDB connection error:' and never calls [stop]: the in-memory server
    stays up. *)
Theorem close_failure_skips_stop {D} (P : platform D) (MONGO_URI e : value)
  (w : world D) :
  let evs := since w (snd (start P MONGO_URI w)) in
  In (ECall connection_close (Rejected e)) evs ->
  In (EError "MongoDB connection error:" [e]) evs /\
  forall m o, ~ In (ECall (MongoMemoryServer_stop m) o) evs.
Proof.
  cbv zeta. destruct (start_calls P MONGO_URI w) as [evs [Ht [_ Hclose]]].
  rewrite (since_app _ _ _ Ht). apply Hclose.
Qed.

Lemma close_failure_skips_stop_witness :
  In (EError "MongoDB connection error:" [VStr "busy"])
     (since (mkWorld tt [] [])
        (snd (start (unclosable (VStr "busy")) VUndefined (mkWorld tt [] [])))).
Proof.
  apply (close_failure_skips_stop (unclosable (VStr "busy")) VUndefined (VStr "busy")
           (mkWorld tt [] [])).
  vm_compute. do 9 right. left. reflexivity.
Defined.

(** X10.  With a truthy [MONGO_URI], [start] never starts or stops an
    in-memory server and connects only to [MONGO_URI], with the two options
    of line 30.  With a falsy one, it connects only to the uri of a server it
    has started, and a server it stops is one it has started, after [close]
    has fulfilled. *)
Theorem start_connects_to {D} (P : platform D) (MONGO_URI : value) (w : world D) :
  let evs := since w (snd (start P MONGO_URI w)) in
  (truthy MONGO_URI = true ->
   forall c o, In (ECall c o) evs ->
     c <> MongoMemoryServer_create /\
     (forall m, c <> MongoMemoryServer_stop m) /\
     (forall uri options, c = mongoose_connect uri options ->
        uri = MONGO_URI /\ options = connect_options)) /\
  (truthy MONGO_URI = false ->
   (forall uri options o, In (ECall (mongoose_connect uri options) o) evs ->
      options = connect_options /\
      exists m, In (ECall MongoMemoryServer_create (Fulfilled m)) evs /\
                uri = getUri P m) /\
   (forall m o, In (ECall (MongoMemoryServer_stop m) o) evs ->
      In (ECall MongoMemoryServer_create (Fulfilled m)) evs /\
      exists x, In (ECall connection_close (Fulfilled x)) evs)).
Proof.
  cbv zeta. destruct (start_calls P MONGO_URI w) as [evs [Ht [Hcalls _]]].
  rewrite (since_app _ _ _ Ht). split.
  - intros Huri c o Hin.
    destruct (Hcalls c o Hin)
      as [[_ Hf]|[[_ ->]|[[Hf _]|[Hm|[->|[Hf _]]]]]]; try congruence.
    + split; [discriminate|]. split; [discriminate|].
      intros uri options [= <- <-]. auto.
    + destruct c; try discriminate Hm;
        (split; [discriminate|]; split; [discriminate|]; discriminate).
    + split; [discriminate|]. split; discriminate.
  - intros Huri. split.
    + intros uri options o Hin.
      destruct (Hcalls _ o Hin)
        as [[Hc _]|[[Ht' _]|[[_ [m [Hm Hc]]]|[Hm|[Hc|[_ [m [x [_ [_ Hc]]]]]]]]]];
        try discriminate; try congruence.
      injection Hc as -> ->. split; [reflexivity|]. exists m. auto.
    + intros m o Hin.
      destruct (Hcalls _ o Hin)
        as [[Hc _]|[[Ht' _]|[[_ [m' [_ Hc]]]|[Hm|[Hc|[_ [m' [x [Hm' [Hx Hc]]]]]]]]]];
        try discriminate; try congruence.
      injection Hc as ->. split; [exact Hm'|]. exists x. exact Hx.
Qed.

Lemma start_connects_to_witness :
  truthy VUndefined = false /\
  In (ECall (MongoMemoryServer_stop (VObj [("uri", VStr "mongodb://127.0.0.1:27017/")]))
        (Fulfilled (VBool true)))
     (since (InMemory.fresh_world InMemory.empty)
        (snd (start InMemory.mapper VUndefined
                (InMemory.fresh_world InMemory.empty)))) /\
  In (ECall MongoMemoryServer_create
        (Fulfilled (VObj [("uri", VStr "mongodb://127.0.0.1:27017/")])))
     (since (InMemory.fresh_world InMemory.empty)
        (snd (start InMemory.mapper VUndefined
                (InMemory.fresh_world InMemory.empty)))).
Proof.
  assert (Hstop :
    In (ECall (MongoMemoryServer_stop (VObj [("uri", VStr "mongodb://127.0.0.1:27017/")]))
          (Fulfilled (VBool true)))
       (since (InMemory.fresh_world InMemory.empty)
          (snd (start InMemory.mapper VUndefined
                  (InMemory.fresh_world InMemory.empty))))).
  { pose (is_stop := fun e => match e with
                               | ECall (MongoMemoryServer_stop _) _ => true
                               | _ => false
                               end).
    assert (Hf : In (ECall (MongoMemoryServer_stop
                              (VObj [("uri", VStr "mongodb://127.0.0.1:27017/")]))
                       (Fulfilled (VBool true)))
                    (filter is_stop
                       (since (InMemory.fresh_world InMemory.empty)
                          (snd (start InMemory.mapper VUndefined
                                  (InMemory.fresh_world InMemory.empty))))))
      by (vm_compute; left; reflexivity).
    exact (proj1 (proj1 (filter_In is_stop _ _) Hf)). }
  destruct (start_connects_to InMemory.mapper VUndefined
              (InMemory.fresh_world InMemory.empty)) as [_ H].
  destruct (H eq_refl) as [_ H2].
  destruct (H2 _ _ Hstop) as [Hc _].
  split; [reflexivity|]. split; [exact Hstop|exact Hc].
Defined.

(** X11.  In the reaction to an established connection the outcome of the
    tasks only chooses the line that is logged: after a fulfilled run 'All
    tasks completed.' is logged, after a rejected one 'Error running tasks:'
    with exactly the error of the tasks; the release then runs in the state
    the tasks left, and the reaction fulfils unless the release itself
    throws, so the error of the tasks is never passed on. *)
Theorem tasks_outcome_is_logged {D} (P : platform D) (mongod : value) (w : world D) :
  let w1 := mkWorld (w_ext w) (w_promises w)
              (w_trace w ++ [ELog "Successfully connected to MongoDB" []]) in
  let finish (run : result unit * world D) : result value * world D :=
    match run with
    | (Ret _, w4) => (Ret VUndefined, w4)
    | (Throw x, w4) => (Throw x, w4)
    | (Hang, w4) => (Hang, w4)
    end in
  (forall v w2, runAllTasks P w1 = (Ret v, w2) ->
     connected P mongod w
     = finish (release P mongod
                 (mkWorld (w_ext w2) (w_promises w2)
                    (w_trace w2 ++ [ELog "All tasks completed." []])))) /\
  (forall e w2, runAllTasks P w1 = (Throw e, w2) ->
     connected P mongod w
     = finish (release P mongod
                 (mkWorld (w_ext w2) (w_promises w2)
                    (w_trace w2 ++ [EError "Error running tasks:" [e]])))).
Proof.
  cbv zeta. split.
  - intros v w2 Hrun. unfold connected. unfold bind at 1.
    unfold console_log at 1, emit at 1.
    unfold bind at 1, try_finally, try_catch. unfold bind at 1. rewrite Hrun.
    unfold console_log at 1, emit at 1. unfold bind at 1.
    destruct (release P mongod _) as [[[]|x|] w4]; reflexivity.
  - intros e w2 Hrun. unfold connected. unfold bind at 1.
    unfold console_log at 1, emit at 1.
    unfold bind at 1, try_finally, try_catch. unfold bind at 1. rewrite Hrun.
    unfold console_error at 1, emit at 1. unfold bind at 1.
    destruct (release P mongod _) as [[[]|x|] w4]; reflexivity.
Qed.

Lemma tasks_outcome_is_logged_witness :
  In (EError "Error running tasks:" [VStr "busy"])
     (w_trace (snd (connected (unclosable (VStr "busy")) VNull (mkWorld tt [] [])))).
Proof.
  destruct (tasks_outcome_is_logged (unclosable (VStr "busy")) VNull (mkWorld tt [] []))
    as [_ H].
  erewrite H by (vm_compute; reflexivity).
  vm_compute. do 5 right. left. reflexivity.
Defined.

(** ** Editing twice *)

Lemma find_update_first (test : value -> bool) (d' : value) (l : list value) (d : value) :
  find test l = Some d -> test d' = true ->
  find test (InMemory.update_first test (fun _ => d') l) = Some d'.
Proof.
  intros Hfind Hd'. induction l as [|x l IH]; simpl in *; [discriminate|].
  destruct (test x) eqn:Hx; simpl.
  - rewrite Hd'. reflexivity.
  - rewrite Hx. apply IH. exact Hfind.
Qed.

Lemma has_id_with_hamburger (i : N) (d : value) :
  InMemory.has_id i d = true -> InMemory.has_id i (with_hamburger d) = true.
Proof.
  unfold with_hamburger, InMemory.has_id.
  destruct (InMemory.field "favoriteFoods" d); try (intros H; exact H).
  rewrite field_set_other by discriminate. intros H; exact H.
Qed.

(** X12.  [findEditThenSave] is not idempotent: on the reference platform,
    run twice on the id of a stored, conforming person, it leaves that person
    with 'hamburger' appended twice, and reports the document of each run. *)
Theorem findEditThenSave_twice (i : N) (w : world InMemory.store) (d : value) :
  find (InMemory.has_id i) (InMemory.collection (w_ext w)) = Some d ->
  conforms d = true ->
  let w1 := snd (findEditThenSave InMemory.mapper (VId i) probe w) in
  let w2 := snd (findEditThenSave InMemory.mapper (VId i) probe w1) in
  find (InMemory.has_id i) (InMemory.collection (w_ext w2))
    = Some (with_hamburger (with_hamburger d)) /\
  reported (since w w2)
    = [ (VNull, with_hamburger d); (VNull, with_hamburger (with_hamburger d)) ] /\
  exists foods,
    InMemory.field "favoriteFoods" d = VArr foods /\
    InMemory.field "favoriteFoods" (with_hamburger (with_hamburger d))
      = VArr (foods ++ [VStr "hamburger"; VStr "hamburger"]).
Proof.
  intros Hfind Hconf. cbv zeta.
  pose proof (find_some _ _ Hfind) as [_ Hid].
  rewrite (findEditThenSave_found i w d Hfind Hconf). cbn [snd].
  assert (Hfind1 : find (InMemory.has_id i)
                     (InMemory.collection
                        (InMemory.with_collection
                           (InMemory.update_first (InMemory.has_id i)
                              (fun _ => with_hamburger d)
                              (InMemory.collection (w_ext w))) (w_ext w)))
                   = Some (with_hamburger d)).
  { cbn. apply (find_update_first _ _ _ d Hfind), has_id_with_hamburger, Hid. }
  pose proof (conforms_with_hamburger d Hconf) as Hconf1.
  match goal with
  | |- context [findEditThenSave InMemory.mapper (VId i) probe ?w1] =>
      rewrite (findEditThenSave_found i w1 (with_hamburger d) Hfind1 Hconf1)
  end.
  cbn [snd w_ext w_trace InMemory.collection InMemory.with_collection].
  split; [|split].
  - apply (find_update_first _ _ _ (with_hamburger d)).
    + apply (find_update_first _ _ _ d Hfind), has_id_with_hamburger, Hid.
    + apply has_id_with_hamburger, has_id_with_hamburger, Hid.
  - erewrite since_app by (cbn [w_trace]; rewrite <- app_assoc; reflexivity).
    reflexivity.
  - destruct (conforms_fields d Hconf) as [_ [_ [foods [Hf _]]]].
    exists foods. split; [exact Hf|].
    assert (Hf1 : InMemory.field "favoriteFoods" (with_hamburger d)
                  = VArr (foods ++ [VStr "hamburger"])).
    { unfold with_hamburger. rewrite Hf. apply field_set_same.
      rewrite Hf. discriminate. }
    unfold with_hamburger at 1. rewrite Hf1.
    rewrite field_set_same by (rewrite Hf1; discriminate).
    rewrite <- app_assoc. reflexivity.
Qed.

Lemma findEditThenSave_twice_witness :
  find (InMemory.has_id 0)
    (InMemory.collection
       (w_ext (snd (findEditThenSave InMemory.mapper (VId 0) probe
                      (snd (findEditThenSave InMemory.mapper (VId 0) probe
                              (InMemory.fresh_world one_person)))))))
  = Some (VObj [ ("_id", VId 0); ("name", VStr "Charlie"); ("age", VNum 40);
                 ("favoriteFoods",
                  VArr [VStr "sandwich"; VStr "hamburger"; VStr "hamburger"]) ]).
Proof.
  destruct (findEditThenSave_twice 0 (InMemory.fresh_world one_person)
              (VObj [ ("_id", VId 0); ("name", VStr "Charlie"); ("age", VNum 40);
                      ("favoriteFoods", VArr [VStr "sandwich"]) ])
              eq_refl eq_refl) as [H _].
  rewrite H. reflexivity.
Defined.
